(** * LatentLM/debug_hf.py: the training orchestrator

    A shallow embedding of [debug_hf.py] (argument record, [main] and the
    blocks of its training loop) and the properties of its normalisation,
    EMA, rollout, logging and checkpointing paths.

    Python floats and tensor elements are idealised as real numbers.  Every
    call that leaves the script (torch, accelerate, diffusers, wandb, the
    repository's own [models], [utils] and [schedule] packages) is a node of
    a program tree; an interpreter runs the tree against a handler that
    plays the outside world and records the calls made, in order.  The
    [with torch.no_grad()] blocks only scope gradient tracking and are left
    out.  The definitions come first, the properties after them. *)

From Stdlib Require Import Reals Lra List String Ascii ZArith Lia Bool DecimalString
  DecimalPos DecimalZ.
Import ListNotations.

Set Warnings "-register-all".

Local Open Scope string_scope.
Local Open Scope Z_scope.

(** ** Data *)

(** A tensor: its shape and its elements in row-major order. *)
Record tensor : Type := mkTensor {
  shape : list nat;
  data : list R
}.

(** [t.flatten()]: all the elements, as one sequence. *)
Definition flatten (t : tensor) : list R := data t.

(** [p.numel()] *)
Definition numel (t : tensor) : Z := Z.of_nat (List.length (data t)).

(** [t + b] and [t * s] with a Python float on the right: elementwise. *)
Definition tensor_add_scalar (t : tensor) (b : R) : tensor :=
  mkTensor (shape t) (map (fun x => (x + b)%R) (data t)).

Definition tensor_mul_scalar (t : tensor) (s : R) : tensor :=
  mkTensor (shape t) (map (fun x => (x * s)%R) (data t)).

(** [image.shape[0]] *)
Definition shape0 (t : tensor) : nat := hd O (shape t).

(** A reference to an object that lives outside the script (the VAE, the
    model, the accelerator, a dataset, a scheduler, ...). *)
Inductive obj : Type := Obj (id : nat).

Inductive dtype : Type := bfloat16 | float16 | float32.

(** The arguments, [argparse.Namespace] as [parse_args] builds it. *)
Module Args.
Record Namespace : Type := {
  seed : Z;
  output_dir : string;
  cache_dir : string;
  local_rank : Z;
  dataset_name : option string;
  dataset_config_name : option string;
  train_data_dir : option string;
  model : string;
  vae : option string;
  image_size : Z;
  num_classes : Z;
  dropout : R;
  batch_size : Z;
  num_epochs : Z;
  gradient_accumulation_steps : Z;
  dataloader_num_workers : Z;
  learning_rate : R;
  lr_warmup_steps : Z;
  use_ema : bool;
  ema_inv_gamma : R;
  ema_power : R;
  ema_max_decay : R;
  logger : option string;
  logging_dir : string;
  wandb_project : option string;
  wandb_entity : option string;
  log_every : Z;
  mixed_precision : string;
  prediction_type : string;
  ddpm_num_steps : Z;
  ddpm_num_inference_steps : Z;
  ddpm_beta_schedule : string;
  ddpm_batch_mul : Z;
  checkpointing_steps : Z;
  checkpoint : option string
}.
End Args.

(** The defaults of [parse_args], with [--use_ema] as given. *)
Definition args_with (use_ema : bool) : Args.Namespace := {|
  Args.seed := 0;
  Args.output_dir := "results";
  Args.cache_dir := "/mnt/msranlp/yutao/cache";
  Args.local_rank := -1;
  Args.dataset_name := None;
  Args.dataset_config_name := None;
  Args.train_data_dir := Some "/tmp/ILSVRC/Data/CLS-LOC/train";
  Args.model := "DiT-Medium";
  Args.vae := None;
  Args.image_size := 256;
  Args.num_classes := 1000;
  Args.dropout := 0%R;
  Args.batch_size := 32;
  Args.num_epochs := 100;
  Args.gradient_accumulation_steps := 1;
  Args.dataloader_num_workers := 2;
  Args.learning_rate := (1 / 10000)%R;
  Args.lr_warmup_steps := 100;
  Args.use_ema := use_ema;
  Args.ema_inv_gamma := 1%R;
  Args.ema_power := (3 / 4)%R;
  Args.ema_max_decay := (9999 / 10000)%R;
  Args.logger := None;
  Args.logging_dir := "logs";
  Args.wandb_project := None;
  Args.wandb_entity := None;
  Args.log_every := 100;
  Args.mixed_precision := "no";
  Args.prediction_type := "epsilon";
  Args.ddpm_num_steps := 1000;
  Args.ddpm_num_inference_steps := 20;
  Args.ddpm_beta_schedule := "cosine";
  Args.ddpm_batch_mul := 4;
  Args.checkpointing_steps := 5000;
  Args.checkpoint := None
|}.

Definition default_args : Args.Namespace := args_with false.

(** What the script prints or logs: f-strings keep their pieces. *)
Inductive printable : Type :=
| PStr (s : string)
| PInt (z : Z)
| PFloat (x : R)
| PBool (b : bool)
| PObj (o : obj)
| PArgs (a : Args.Namespace)
| PFormat (pieces : list printable)
| PDict (items : list (string * printable)).

(** The exceptions the script can end with. *)
Inductive exn : Type :=
| NameError (name : string)
| UnboundLocalError (name : string)
| ZeroDivisionError
| ValueError (msg : printable)
| NotImplementedError
| TypeError (what : string)
| SystemExit
| External (what : string).

(** ** The EMA tracker *)

(** Modelled from the spec: [EMAModel] is imported from the repository's
    [models] package, which is not among the sources.  Section 4.1 and 4.2
    of the specification give its state (shadow values, call counter, the
    configuration knobs), its decay schedule and its [step], [state_dict] and
    [load_state_dict]; the keyword names are the ones [main] passes. *)
Record EMAModel : Type := mkEMA {
  shadow_params : list tensor;
  optimization_step : Z;
  decay : R;
  min_decay : R;
  use_ema_warmup : bool;
  inv_gamma : R;
  power : R;
  cur_decay_value : R
}.

(** Modelled from the spec: clamp to [[min_decay, max_decay]]. *)
Definition clamp (lo hi x : R) : R := Rmax lo (Rmin x hi).

(** Modelled from the spec (4.1): the raw warmup value
    [1 - (1 + step/inv_gamma)^(-power)]. *)
Definition warmup_raw (inv_gamma power : R) (step : Z) : R :=
  (1 - Rpower (1 + IZR step / inv_gamma) (- power))%R.

(** Modelled from the spec (4.1 DecayScheduler): with warmup the raw
    warmup value, without it [max_decay]; the result is clamped to
    [[min_decay, max_decay]]. *)
Definition get_decay (e : EMAModel) (step : Z) : R :=
  let raw :=
    if use_ema_warmup e
    then warmup_raw (inv_gamma e) (power e) step
    else decay e in
  clamp (min_decay e) (decay e) raw.

(** Modelled from the spec: [EMAModel(parameters, decay=, min_decay=,
    use_ema_warmup=, inv_gamma=, power=)] copies the parameters into the
    shadow and starts the call counter at 0. *)
Definition EMAModel_init (parameters : list tensor)
    (decay min_decay : R) (use_ema_warmup : bool) (inv_gamma power : R) : EMAModel :=
  mkEMA parameters 0 decay min_decay use_ema_warmup inv_gamma power 0%R.

(** Modelled from the spec: one position of the shadow moves towards the
    live value, [shadow + (1 - d) * (current - shadow)]. *)
Fixpoint ema_blend (d : R) (s p : list R) : list R :=
  match s, p with
  | x :: s', y :: p' => (x + (1 - d) * (y - x))%R :: ema_blend d s' p'
  | _, _ => []
  end.

Definition same_shape (s p : tensor) : bool :=
  if list_eq_dec Nat.eq_dec (shape s) (shape p)
  then Nat.eqb (List.length (data s)) (List.length (data p))
  else false.

Fixpoint same_shapes (ss ps : list tensor) : bool :=
  match ss, ps with
  | [], [] => true
  | s :: ss', p :: ps' => same_shape s p && same_shapes ss' ps'
  | _, _ => false
  end.

Fixpoint ema_blend_all (d : R) (ss ps : list tensor) : list tensor :=
  match ss, ps with
  | s :: ss', p :: ps' =>
      mkTensor (shape s) (ema_blend d (data s) (data p)) :: ema_blend_all d ss' ps'
  | _, _ => []
  end.

(** Modelled from the spec (4.2): [step(current_parameters)] takes the decay
    of the current call count, updates every position and increments the
    counter; a shape mismatch is fatal ([None]). *)
Definition EMAModel_step (e : EMAModel) (current : list tensor) : option EMAModel :=
  if same_shapes (shadow_params e) current then
    let d := get_decay e (optimization_step e) in
    Some (mkEMA (ema_blend_all d (shadow_params e) current)
                (optimization_step e + 1)
                (decay e) (min_decay e) (use_ema_warmup e) (inv_gamma e) (power e) d)
  else None.

(** Modelled from the spec: the serialised EMA state, the value of the
    ["ema"] key of a checkpoint's side record. *)
Record ema_state : Type := mkEmaState {
  sd_shadow_params : list tensor;
  sd_optimization_step : Z;
  sd_decay : R;
  sd_min_decay : R;
  sd_use_ema_warmup : bool;
  sd_inv_gamma : R;
  sd_power : R
}.

Definition state_dict (e : EMAModel) : ema_state :=
  mkEmaState (shadow_params e) (optimization_step e) (decay e) (min_decay e)
             (use_ema_warmup e) (inv_gamma e) (power e).

Definition load_state_dict (e : EMAModel) (sd : ema_state) : EMAModel :=
  mkEMA (sd_shadow_params sd) (sd_optimization_step sd) (sd_decay sd) (sd_min_decay sd)
        (sd_use_ema_warmup sd) (sd_inv_gamma sd) (sd_power sd) (cur_decay_value e).

(** The side record of a checkpoint, [other_state.pth]. *)
Record other_state : Type := mkOtherState {
  os_scaling_factor : option R;
  os_bias_factor : option R;
  os_steps : Z;
  os_ema : option ema_state
}.

(** ** Calls that leave the script *)

(** One constructor per external call of [main], with the arguments that
    reach it.  [load_vae] and [global_item] stand for uses of names the module
    never binds (see [bound]); they are listed so that the code after them can
    be written down. *)
Inductive call : Type :=
| set_seed (seed : Z)
| torch_cuda_is_available
| load_vae (path : option string) (image_size : Z)
| All_models (name : string) (input_size in_channels num_classes : Z)
             (flatten_input : bool) (drop : R)
| model_parameters (m : obj)
| DPMSolverMultistepScheduler (num_train_timesteps : Z) (beta_schedule prediction_type : string)
| Accelerator (gradient_accumulation_steps : Z) (mixed_precision : string)
              (log_with : option string) (project_dir logging_dir : string)
              (timeout_seconds : Z)
| logging_basicConfig
| accelerator_state (acc : obj)
| logger_info (msg : printable)
| is_local_main_process (acc : obj)
| set_verbosity (library level : string)
| is_main_process (acc : obj)
| os_makedirs (path : string)
| wandb_init (project : string) (entity : option string)
| transforms_Compose (image_size : Z)
| load_dataset (name : string) (config : option string) (cache_dir : string)
| dataset_set_transform (ds augmentations : obj)
| ImageFolder (root : option string) (transform : obj)
| DataLoader (dataset : obj) (batch_size num_workers : Z)
| os_path_exists (path : string)
| read_file (path : string)
| torch_load_other_state (path : string)
| set_param_data (m : obj) (index : nat) (value : tensor) (device : string) (dt : dtype)
| print (msg : printable)
| load_file (path : string)
| torch_load_module (path : string)
| model_load_state_dict (m state : obj)
| accelerator_prepare (acc m dataloader : obj)
| vae_to_device (vae acc : obj)
| vae_eval (vae : obj)
| init_trackers (acc : obj) (run : string)
| num_processes (acc : obj)
| len_dataloader (dataloader : obj)
| len_dataset (ds : obj)
| torch_manual_seed (seed : Z)
| torch_cuda_manual_seed (seed : Z)
| model_train (m : obj)
| iter_dataloader (dataloader : obj)
| vae_encode (vae : obj) (images : tensor)
| latent_sample (distribution : obj)
| dist_all_reduce_SUM (x : R)
| dist_get_world_size
| is_Transformer (m : obj)
| torch_randn_like (t : tensor)
| forward_parallel (m : obj) (clean_images label : tensor)
| scheduler_set_timesteps (scheduler : obj) (num_inference_steps : Z)
| scheduler_timesteps (scheduler : obj)
| forward_diffusion (m : obj) (image : tensor) (t : list Z) (condition : tensor)
| scheduler_step (scheduler : obj) (model_output : tensor) (t : Z) (sample : tensor)
| accelerator_backward (acc : obj) (loss : R)
| sync_gradients (acc : obj)
| global_item (name : string)
| accelerator_log (acc : obj) (logs : printable) (step : Z)
| wandb_log (logs : printable) (step : Z)
| accelerator_save_state (acc : obj) (path : string)
| torch_save_other_state (st : other_state) (path : string)
| safe_blob_write (path content : string)
| accelerator_end_training (acc : obj).

(** What each call returns to the script. *)
Definition resp (c : call) : Type :=
  match c with
  | torch_cuda_is_available | is_local_main_process _ | is_main_process _
  | os_path_exists _ | is_Transformer _ | sync_gradients _ => bool
  | load_vae _ _ => (obj * Z * Z * bool)%type
  | All_models _ _ _ _ _ _ | DPMSolverMultistepScheduler _ _ _
  | Accelerator _ _ _ _ _ _ | accelerator_state _ | transforms_Compose _
  | load_dataset _ _ _ | ImageFolder _ _ | DataLoader _ _ _ | load_file _
  | torch_load_module _ | vae_encode _ _ => obj
  | model_parameters _ => list tensor
  | read_file _ => string
  | torch_load_other_state _ => other_state
  | accelerator_prepare _ _ _ => (obj * obj)%type
  | num_processes _ | len_dataloader _ | len_dataset _ | dist_get_world_size => Z
  | iter_dataloader _ => list (tensor * tensor)
  | latent_sample _ | torch_randn_like _ | forward_parallel _ _ _
  | forward_diffusion _ _ _ _ | scheduler_step _ _ _ _ => tensor
  | scheduler_timesteps _ => list Z
  | dist_all_reduce_SUM _ | global_item _ => R
  | _ => unit
  end.

(** ** Programs *)

(** A program returns, raises, or makes a call and goes on with its answer. *)
Inductive prog (A : Type) : Type :=
| Ret (a : A)
| Raise (e : exn)
| Vis (c : call) (k : resp c -> prog A).

Arguments Ret {A} a.
Arguments Raise {A} e.
Arguments Vis {A} c k.

Fixpoint bind {A B : Type} (p : prog A) (f : A -> prog B) : prog B :=
  match p with
  | Ret a => f a
  | Raise e => Raise e
  | Vis c k => Vis c (fun r => bind (k r) f)
  end.

Definition ext (c : call) : prog (resp c) := Vis c Ret.

Declare Scope prog_scope.
Delimit Scope prog_scope with prog.
Notation "x <- c1 ;; c2" := (bind c1 (fun x => c2))
  (at level 61, c1 at next level, right associativity) : prog_scope.
Notation "' pat <- c1 ;; c2" := (bind c1 (fun pat => c2))
  (at level 61, pat pattern, c1 at next level, right associativity) : prog_scope.
Notation "c1 ;; c2" := (bind c1 (fun _ => c2))
  (at level 61, right associativity) : prog_scope.
Local Open Scope prog_scope.

(** [for x in xs: acc = body(x, acc)] *)
Fixpoint for_each {X S : Type} (xs : list X) (body : X -> S -> prog S) (s : S) : prog S :=
  match xs with
  | [] => Ret s
  | x :: xs' => s' <- body x s ;; for_each xs' body s'
  end.

(** ** Running a program against the outside world *)

(** The outside world answers a call with a value or raises inside it. *)
Definition handler (W : Type) : Type := forall c : call, W -> (resp c + exn) * W.

(** A world in which no external call raises. *)
Definition answers (W : Type) : Type := forall c : call, W -> resp c * W.

Definition lift {W : Type} (f : answers W) : handler W :=
  fun c w => let (r, w') := f c w in (inl r, w').

Inductive event : Type :=
| Event (c : call) (r : resp c)
| Failed (c : call) (e : exn).

Definition event_call (ev : event) : call :=
  match ev with Event c _ => c | Failed c _ => c end.

(** The outcome, the world afterwards and the calls made, oldest first. *)
Fixpoint run {W A : Type} (h : handler W) (p : prog A) (w : W)
  : (A + exn) * W * list event :=
  match p with
  | Ret a => (inl a, w, [])
  | Raise e => (inr e, w, [])
  | Vis c k =>
      match h c w with
      | (inl r, w') =>
          let '(res, w'', tr) := run h (k r) w' in (res, w'', Event c r :: tr)
      | (inr e, w') => (inr e, w', [Failed c e])
      end
  end.

(** ** Python pieces *)

(** The names the module binds before [main] runs: its imports (lines 1-31),
    [logger], [parse_args], [main] and [args]. *)
Definition module_globals : list string :=
  [ "argparse"; "functools"; "logging"; "math"; "os"; "timedelta";
    "datasets"; "torch"; "F"; "dist"; "Accelerator"; "InitProcessGroupKwargs";
    "get_logger"; "ProjectConfiguration"; "set_seed"; "load_file";
    "load_dataset"; "transforms"; "InterpolationMode"; "ImageFolder";
    "diffusers"; "compute_snr"; "get_scheduler";
    "All_models"; "DiT"; "Transformer"; "EMAModel";
    "center_crop_arr"; "safe_blob_write"; "DPMSolverMultistepScheduler";
    "wandb"; "AutoencoderKL"; "logger"; "parse_args"; "main"; "args" ].

(** The builtins [main] uses. *)
Definition builtins : list string :=
  [ "print"; "exit"; "sum"; "range"; "enumerate"; "zip"; "isinstance";
    "open"; "len"; "ValueError"; "NotImplementedError"; "__file__" ].

Definition bound (name : string) : bool :=
  existsb (String.eqb name) (module_globals ++ builtins).

(** A use of a name that is not a local of [main]: the lookup goes to the
    module and the builtins and raises [NameError] when neither binds it. *)
Definition global {A : Type} (name : string) (p : prog A) : prog A :=
  if bound name then p else Raise (NameError name).

(** [exit()] *)
Definition exit {A : Type} : prog A := Raise SystemExit.

(** [x / n] with a float on the left and an int on the right. *)
Definition float_div (x : R) (n : Z) : prog R :=
  if n =? 0 then Raise ZeroDivisionError else Ret (x / IZR n)%R.

(** [a % b] and [a // b] on ints (floor division, as [Z.modulo], [Z.div]). *)
Definition py_mod (a b : Z) : prog Z :=
  if b =? 0 then Raise ZeroDivisionError else Ret (a mod b).

Definition py_floordiv (a b : Z) : prog Z :=
  if b =? 0 then Raise ZeroDivisionError else Ret (a / b).

(** [str(n)] for an int. *)
Definition str_of_int (n : Z) : string := NilZero.string_of_int (Z.to_int n).

Fixpoint ends_with_slash (s : string) : bool :=
  match s with
  | EmptyString => false
  | String c EmptyString => Ascii.eqb c "/"
  | String _ s' => ends_with_slash s'
  end.

(** [os.path.join(a, b)] on POSIX. *)
Definition path_join (a b : string) : string :=
  if String.prefix "/" b then b
  else if orb (String.eqb a "") (ends_with_slash a) then a ++ b
  else a ++ "/" ++ b.

(** A string of the model is the UTF-8 encoding of the Python [str], byte
    by byte.  [s.strip()] removes from both ends the characters for which
    [str.isspace()] holds: U+0009-000D, U+001C-001F and U+0020 (one byte
    each), U+0085 and U+00A0 (two bytes), and U+1680, U+2000-200A, U+2028,
    U+2029, U+202F, U+205F and U+3000 (three bytes). *)

(** The white-space characters of one byte: 09-0D, 1C-1F and 20. *)
Definition is_space (c : ascii) : bool :=
  let n := nat_of_ascii c in
  orb (andb (Nat.leb 9 n) (Nat.leb n 13)) (orb (andb (Nat.leb 28 n) (Nat.leb n 31)) (Nat.eqb n 32)).

(** Those of two bytes: U+0085 is [C2 85], U+00A0 is [C2 A0]. *)
Definition is_space2 (a b : ascii) : bool :=
  Nat.eqb (nat_of_ascii a) 194
  && (Nat.eqb (nat_of_ascii b) 133 || Nat.eqb (nat_of_ascii b) 160).

(** Those of three bytes: U+1680 is [E1 9A 80]; U+2000-200A are [E2 80 80]
    to [E2 80 8A]; U+2028, U+2029 and U+202F are [E2 80 A8], [E2 80 A9] and
    [E2 80 AF]; U+205F is [E2 81 9F]; U+3000 is [E3 80 80]. *)
Definition is_space3 (a b c : ascii) : bool :=
  let a := nat_of_ascii a in
  let b := nat_of_ascii b in
  let c := nat_of_ascii c in
  (Nat.eqb a 225 && Nat.eqb b 154 && Nat.eqb c 128)
  || (Nat.eqb a 226 && Nat.eqb b 128
      && ((Nat.leb 128 c && Nat.leb c 138) || Nat.eqb c 168 || Nat.eqb c 169
          || Nat.eqb c 175))
  || (Nat.eqb a 226 && Nat.eqb b 129 && Nat.eqb c 159)
  || (Nat.eqb a 227 && Nat.eqb b 128 && Nat.eqb c 128).

(** What follows the first character of [s], when that is white space. *)
Definition space_prefix (s : string) : option string :=
  match s with
  | EmptyString => None
  | String a s1 =>
      if is_space a then Some s1
      else match s1 with
           | EmptyString => None
           | String b s2 =>
               if is_space2 a b then Some s2
               else match s2 with
                    | EmptyString => None
                    | String c s3 => if is_space3 a b c then Some s3 else None
                    end
           end
  end.

Fixpoint lstrip (s : string) : string :=
  match s with
  | EmptyString => EmptyString
  | String a s1 =>
      if is_space a then lstrip s1
      else match s1 with
           | EmptyString => s
           | String b s2 =>
               if is_space2 a b then lstrip s2
               else match s2 with
                    | EmptyString => s
                    | String c s3 => if is_space3 a b c then lstrip s3 else s
                    end
           end
  end.

Definition all_space (s : string) : bool :=
  match lstrip s with EmptyString => true | String _ _ => false end.

(** The longest suffix of white-space characters is dropped. *)
Fixpoint rstrip (s : string) : string :=
  match s with
  | EmptyString => EmptyString
  | String c s' => if all_space s then EmptyString else String c (rstrip s')
  end.

Definition strip (s : string) : string := rstrip (lstrip s).

(** The string of the given bytes. *)
Definition utf8 (bytes : list Z) : string :=
  string_of_list_ascii (map (fun b => ascii_of_N (Z.to_N b)) bytes).

(** The pure numerics torch provides: [t.std()], [t.mean()] over a flattened
    tensor and [F.mse_loss]. *)
Class Torch : Type := {
  torch_std : list R -> R;
  torch_mean : list R -> R;
  F_mse_loss : tensor -> tensor -> R
}.

(** ** The locals of [main] that the training loop reads and writes *)

Record Locals : Type := mkLocals {
  global_step : Z;
  running_loss : R;
  scaling_factor : option R;
  bias_factor : option R;
  ema_model : option EMAModel
}.

Definition set_factors (l : Locals) (s b : option R) : Locals :=
  mkLocals (global_step l) (running_loss l) s b (ema_model l).

Definition set_running_loss (l : Locals) (x : R) : Locals :=
  mkLocals (global_step l) x (scaling_factor l) (bias_factor l) (ema_model l).

Definition set_global_step (l : Locals) (n : Z) : Locals :=
  mkLocals n (running_loss l) (scaling_factor l) (bias_factor l) (ema_model l).

Definition set_ema_model (l : Locals) (e : option EMAModel) : Locals :=
  mkLocals (global_step l) (running_loss l) (scaling_factor l) (bias_factor l) e.

Definition p_opt_float (o : option R) : printable :=
  match o with Some x => PFloat x | None => PStr "None" end.

(** [range(a, b)] *)
Definition range (a b : Z) : list Z :=
  map (fun i => a + Z.of_nat i) (seq 0 (Z.to_nat (b - a))).

(** ** The blocks of [main] *)

Section Orchestrator.

Context {torch : Torch}.

(** Lines 260-268: the normalisation of a latent batch.  The first call of
    a run computes the local statistics, averages them over the workers and
    keeps the pair; every call applies the pair the locals hold. *)
Definition normalize (clean_images : tensor) (l : Locals) : prog (tensor * Locals) :=
  l <- match scaling_factor l with
       | None =>
           let scaling := (1 / torch_std (flatten clean_images))%R in
           let bias := (- torch_mean (flatten clean_images))%R in
           scaling <- global "dist" (ext (dist_all_reduce_SUM scaling)) ;;
           bias <- global "dist" (ext (dist_all_reduce_SUM bias)) ;;
           world_size <- global "dist" (ext dist_get_world_size) ;;
           scaling <- float_div scaling world_size ;;
           world_size <- global "dist" (ext dist_get_world_size) ;;
           bias <- float_div bias world_size ;;
           global "logger"
             (ext (logger_info (PFormat [PStr "Scaling factor: "; PFloat scaling;
                                         PStr ", Bias factor: "; PFloat bias]))) ;;
           Ret (set_factors l (Some scaling) (Some bias))
       | Some _ => Ret l
       end ;;
  match bias_factor l, scaling_factor l with
  | Some b, Some s => Ret (tensor_mul_scalar (tensor_add_scalar clean_images b) s, l)
  | _, _ => Raise (TypeError "Tensor and NoneType")
  end.

(** Lines 273-278: the reverse-diffusion rollout. *)
Definition reverse_diffusion (args : Args.Namespace) (model noise_scheduler : obj)
    (clean_images label : tensor) : prog tensor :=
  image <- global "torch" (ext (torch_randn_like clean_images)) ;;
  condition <- ext (forward_parallel model clean_images label) ;;
  ext (scheduler_set_timesteps noise_scheduler (Args.ddpm_num_inference_steps args)) ;;
  timesteps <- ext (scheduler_timesteps noise_scheduler) ;;
  for_each timesteps
    (fun t image =>
       model_output <- ext (forward_diffusion model image (repeat t (shape0 image)) condition) ;;
       ext (scheduler_step noise_scheduler model_output t image))
    image.

(** Lines 270-283: the rollout and its loss; the branch that computes the
    loss prints it and calls [exit()]. *)
Definition rollout_loss (args : Args.Namespace) (model noise_scheduler : obj)
    (clean_images label : tensor) : prog R :=
  match shape clean_images with
  | [bsz; latent_size; h; w] =>
      is_transformer <- global "Transformer" (ext (is_Transformer model)) ;;
      if is_transformer : bool then
        image <- reverse_diffusion args model noise_scheduler clean_images label ;;
        loss <- global "F" (Ret (F_mse_loss image clean_images)) ;;
        global "print" (ext (print (PFloat loss))) ;;
        global "exit" (@exit unit) ;;
        Ret loss
      else Raise NotImplementedError
  | _ => Raise (ValueError (PStr "unpack (expected 4)"))
  end.

(** Lines 291-300: the logging branch. *)
Definition log_metrics (args : Args.Namespace) (accelerator : obj)
    (total_batch_size epoch : Z) (l : Locals) : prog Locals :=
  x <- float_div (running_loss l) (Args.log_every args) ;;
  avg_loss <- float_div x (Args.gradient_accumulation_steps args) ;;
  let l := set_running_loss l 0%R in
  gnorm <- global "gnorm" (ext (global_item "gnorm")) ;;
  let logs := [("loss", PFloat avg_loss); ("step", PInt (global_step l));
               ("gnorm", PFloat gnorm); ("batch size", PInt total_batch_size);
               ("epoch", PInt epoch)] in
  logs <- (if Args.use_ema args then
             match ema_model l with
             | Some e => Ret (logs ++ [("ema_decay", PFloat (cur_decay_value e))])%list
             | None => Raise (UnboundLocalError "ema_model")
             end
           else Ret logs) ;;
  global "logger" (ext (logger_info (PDict logs))) ;;
  ext (accelerator_log accelerator (PDict logs) (global_step l)) ;;
  is_main <- ext (is_main_process accelerator) ;;
  match is_main : bool, Args.wandb_project args with
  | true, Some _ => global "wandb" (ext (wandb_log (PDict logs) (global_step l)))
  | _, _ => Ret tt
  end ;;
  Ret l.

(** Lines 303-312: [save_checkpoint(path)]. *)
Definition save_checkpoint (args : Args.Namespace) (accelerator : obj) (l : Locals)
    (path : string) : prog unit :=
  ext (accelerator_save_state accelerator path) ;;
  is_main <- ext (is_main_process accelerator) ;;
  if is_main : bool then
    ema <- (if Args.use_ema args then
              match ema_model l with
              | Some e => Ret (Some (state_dict e))
              | None => Raise (UnboundLocalError "ema_model")
              end
            else Ret None) ;;
    let other := mkOtherState (scaling_factor l) (bias_factor l) (global_step l) ema in
    global "torch" (ext (torch_save_other_state other (path_join path "other_state.pth")))
  else Ret tt.

(** Lines 302-316: the checkpointing branch. *)
Definition checkpoint_branch (args : Args.Namespace) (accelerator : obj) (l : Locals)
    : prog unit :=
  let save_path :=
    path_join (Args.output_dir args) ("checkpoint-" ++ str_of_int (global_step l)) in
  save_checkpoint args accelerator l save_path ;;
  global "safe_blob_write"
    (ext (safe_blob_write (path_join (Args.output_dir args) "latest") save_path)) ;;
  global "logger" (ext (logger_info (PFormat [PStr "Saved state to "; PStr save_path]))).

(** Lines 287-316: what follows the backward pass on a gradient-sync
    boundary. *)
Definition after_sync (args : Args.Namespace) (model accelerator : obj)
    (total_batch_size epoch : Z) (l : Locals) : prog Locals :=
  let l := set_global_step l (global_step l + 1) in
  l <- (if Args.use_ema args then
          match ema_model l with
          | Some e =>
              parameters <- ext (model_parameters model) ;;
              match EMAModel_step e parameters with
              | Some e' => Ret (set_ema_model l (Some e'))
              | None => Raise (External "EMAModel.step: shape mismatch")
              end
          | None => Raise (UnboundLocalError "ema_model")
          end
        else Ret l) ;;
  m <- py_mod (global_step l) (Args.log_every args) ;;
  l <- (if m =? 0 then log_metrics args accelerator total_batch_size epoch l else Ret l) ;;
  m <- py_mod (global_step l) (Args.checkpointing_steps args) ;;
  (if m =? 0 then checkpoint_branch args accelerator l else Ret tt) ;;
  Ret l.

(** Lines 256-316: one iteration of the training loop. *)
Definition train_step (args : Args.Namespace) (vae model noise_scheduler accelerator : obj)
    (total_batch_size epoch : Z) (batch : tensor * tensor) (l : Locals) : prog Locals :=
  let '(clean_images, label) := batch in
  vae_latent <- ext (vae_encode vae clean_images) ;;
  clean_images <- ext (latent_sample vae_latent) ;;
  ' (clean_images, l) <- normalize clean_images l ;;
  loss <- rollout_loss args model noise_scheduler clean_images label ;;
  ext (accelerator_backward accelerator loss) ;;
  let l := set_running_loss l (running_loss l + loss)%R in
  sync <- ext (sync_gradients accelerator) ;;
  if sync : bool then after_sync args model accelerator total_batch_size epoch l
  else Ret l.

(** Lines 254-256: one epoch. *)
Definition train_epoch (args : Args.Namespace)
    (vae model noise_scheduler accelerator train_dataloader : obj)
    (total_batch_size epoch : Z) (l : Locals) : prog Locals :=
  ext (model_train model) ;;
  batches <- ext (iter_dataloader train_dataloader) ;;
  for_each batches
    (train_step args vae model noise_scheduler accelerator total_batch_size epoch) l.

(** Lines 194-197: the checkpoint to resume from, [--checkpoint] or the
    content of the [latest] pointer file. *)
Definition find_checkpoint (args : Args.Namespace) : prog (option string) :=
  match Args.checkpoint args with
  | Some path => Ret (Some path)
  | None =>
      let latest := path_join (Args.output_dir args) "latest" in
      found <- global "os" (ext (os_path_exists latest)) ;;
      if found : bool then
        content <- global "open" (ext (read_file latest)) ;;
        Ret (Some (strip content))
      else Ret None
  end.

(** Lines 199-218: resuming.  The side record's [scaling_factor] and
    [bias_factor] are bound to the locals of the same names; the model
    weights come from the EMA shadow values of the record or from the model
    file of the checkpoint. *)
Definition resume (args : Args.Namespace) (model : obj) (device : string) (dt : dtype)
    (checkpoint_path : option string) (l : Locals) : prog Locals :=
  match checkpoint_path with
  | None => Ret l
  | Some checkpoint_path =>
      other <- global "torch"
                 (ext (torch_load_other_state (path_join checkpoint_path "other_state.pth"))) ;;
      let l := set_factors l (os_scaling_factor other) (os_bias_factor other) in
      global "print"
        (ext (print (PFormat [PStr "Scaling factor: "; p_opt_float (scaling_factor l);
                              PStr ", Bias factor: "; p_opt_float (bias_factor l)]))) ;;
      match Args.use_ema args, os_ema other with
      | true, Some ema =>
          let checkpoint := sd_shadow_params ema in
          parameters <- ext (model_parameters model) ;;
          for_each (combine (seq 0 (List.length parameters)) (combine parameters checkpoint))
            (fun '(i, (_, ema_param)) _ => ext (set_param_data model i ema_param device dt))
            tt ;;
          global "print"
            (ext (print (PFormat [PStr "Loaded model from checkpoint "; PStr checkpoint_path;
                                  PStr ", EMA applied."]))) ;;
          Ret l
      | _, _ =>
          safetensors <- global "os"
                           (ext (os_path_exists (path_join checkpoint_path "model.safetensors"))) ;;
          checkpoint <-
            (if safetensors : bool then
               global "load_file" (ext (load_file (path_join checkpoint_path "model.safetensors")))
             else
               deepspeed <- global "os"
                              (ext (os_path_exists (path_join checkpoint_path "pytorch_model"))) ;;
               if deepspeed : bool then
                 global "torch"
                   (ext (torch_load_module
                           (path_join (path_join checkpoint_path "pytorch_model")
                                      "mp_rank_00_model_states.pt")))
               else
                 Raise (ValueError (PFormat [PStr "Could not find model checkpoint in ";
                                             PStr checkpoint_path; PStr "."]))) ;;
          ext (model_load_state_dict model checkpoint) ;;
          global "print"
            (ext (print (PFormat [PStr "Loaded model from checkpoint "; PStr checkpoint_path;
                                  PStr "."]))) ;;
          Ret l
      end
  end.

(** Lines 246-250: the assignments in front of the training loop. *)
Definition init_loop_locals (l : Locals) : Locals :=
  let l := set_global_step l 0 in
  let l := set_running_loss l 0%R in
  set_factors l None None.

(** Lines 124-132: the EMA tracker of the model. *)
Definition create_ema (args : Args.Namespace) (model : obj) : prog (option EMAModel) :=
  if Args.use_ema args then
    parameters <- ext (model_parameters model) ;;
    global "EMAModel"
      (Ret (Some (EMAModel_init parameters
                    (Args.ema_max_decay args) (Args.ema_max_decay args) true
                    (Args.ema_inv_gamma args) (Args.ema_power args))))
  else Ret None.

(** Lines 109-318: [main] after the VAE is loaded.  Before line 199 the
    locals [scaling_factor] and [bias_factor] are not bound and nothing reads
    them; the record holds [None] there.  [args.output_dir] is a string, so
    the test of line 161 holds; [ema_model.to(accelerator.device)] (line 227)
    moves the shadow values to the device and leaves them as they are. *)
Definition main_body (args : Args.Namespace) (logging_dir device : string)
    (vae : obj) (input_size latent_size : Z) (flatten_input : bool) : prog unit :=
  model <- global "All_models"
             (ext (All_models (Args.model args) input_size latent_size
                     (Args.num_classes args) flatten_input (Args.dropout args))) ;;
  let dt := if String.eqb (Args.mixed_precision args) "bf16" then bfloat16
            else if String.eqb (Args.mixed_precision args) "fp16" then float16
            else float32 in
  ema <- create_ema args model ;;
  noise_scheduler <- global "DPMSolverMultistepScheduler"
                       (ext (DPMSolverMultistepScheduler (Args.ddpm_num_steps args)
                               (Args.ddpm_beta_schedule args) (Args.prediction_type args))) ;;
  accelerator <- global "Accelerator"
                   (ext (Accelerator (Args.gradient_accumulation_steps args)
                           (Args.mixed_precision args) (Args.logger args)
                           (Args.output_dir args) logging_dir 7200)) ;;
  global "logging" (ext logging_basicConfig) ;;
  state <- ext (accelerator_state accelerator) ;;
  global "logger" (ext (logger_info (PObj state))) ;;
  local_main <- ext (is_local_main_process accelerator) ;;
  (if local_main : bool then
     global "datasets" (ext (set_verbosity "datasets" "warning")) ;;
     global "diffusers" (ext (set_verbosity "diffusers" "info"))
   else
     global "datasets" (ext (set_verbosity "datasets" "error")) ;;
     global "diffusers" (ext (set_verbosity "diffusers" "error"))) ;;
  global "logger" (ext (logger_info (PArgs args))) ;;
  is_main <- ext (is_main_process accelerator) ;;
  (if is_main : bool then
     global "os" (ext (os_makedirs (Args.output_dir args))) ;;
     match Args.wandb_project args with
     | Some project => global "wandb" (ext (wandb_init project (Args.wandb_entity args)))
     | None => Ret tt
     end
   else Ret tt) ;;
  global "logger" (ext (logger_info (PObj model))) ;;
  parameters <- ext (model_parameters model) ;;
  global "logger"
    (ext (logger_info (PFormat [PStr "Model Parameters: ";
                                PInt (fold_right Z.add 0 (map numel parameters))]))) ;;
  augmentations <- global "transforms" (ext (transforms_Compose (Args.image_size args))) ;;
  dataset <- match Args.dataset_name args with
             | Some name =>
                 ds <- global "load_dataset"
                         (ext (load_dataset name (Args.dataset_config_name args)
                                 (Args.cache_dir args))) ;;
                 ext (dataset_set_transform ds augmentations) ;;
                 Ret ds
             | None =>
                 global "ImageFolder" (ext (ImageFolder (Args.train_data_dir args) augmentations))
             end ;;
  train_dataloader <- global "torch"
                        (ext (DataLoader dataset (Args.batch_size args)
                                (Args.dataloader_num_workers args))) ;;
  checkpoint_path <- find_checkpoint args ;;
  l <- resume args model device dt checkpoint_path (mkLocals 0 0%R None None ema) ;;
  ' (model, train_dataloader) <- ext (accelerator_prepare accelerator model train_dataloader) ;;
  ext (vae_to_device vae accelerator) ;;
  ext (vae_eval vae) ;;
  is_main <- ext (is_main_process accelerator) ;;
  (if is_main : bool then ext (init_trackers accelerator "debug_hf") else Ret tt) ;;
  processes <- ext (num_processes accelerator) ;;
  let total_batch_size :=
    Args.batch_size args * processes * Args.gradient_accumulation_steps args in
  batches <- ext (len_dataloader train_dataloader) ;;
  max_train_steps <- py_floordiv (batches * Args.num_epochs args)
                       (Args.gradient_accumulation_steps args) ;;
  global "logger" (ext (logger_info (PStr "***** Running training *****"))) ;;
  examples <- ext (len_dataset dataset) ;;
  global "logger" (ext (logger_info (PFormat [PStr "  Num examples = "; PInt examples]))) ;;
  global "logger"
    (ext (logger_info (PFormat [PStr "  Num Epochs = "; PInt (Args.num_epochs args)]))) ;;
  global "logger"
    (ext (logger_info (PFormat [PStr "  Instantaneous batch size per device = ";
                                PInt (Args.batch_size args)]))) ;;
  global "logger"
    (ext (logger_info
            (PFormat [PStr "  Total train batch size (w. parallel, distributed & accumulation) = ";
                      PInt total_batch_size]))) ;;
  global "logger"
    (ext (logger_info (PFormat [PStr "  Gradient Accumulation steps = ";
                                PInt (Args.gradient_accumulation_steps args)]))) ;;
  global "logger"
    (ext (logger_info (PFormat [PStr "  Total optimization steps = "; PInt max_train_steps]))) ;;
  let l := init_loop_locals l in
  global "torch" (ext (torch_manual_seed (Args.seed args))) ;;
  global "torch" (ext (torch_cuda_manual_seed (Args.seed args))) ;;
  l <- for_each (range 0 (Args.num_epochs args))
         (train_epoch args vae model noise_scheduler accelerator train_dataloader
            total_batch_size)
         l ;;
  ext (accelerator_end_training accelerator).

(** Lines 103-318: [main(args)]. *)
Definition main (args : Args.Namespace) : prog unit :=
  global "set_seed" (ext (set_seed (Args.seed args))) ;;
  logging_dir <- global "os" (Ret (path_join (Args.output_dir args) (Args.logging_dir args))) ;;
  cuda <- global "torch" (ext torch_cuda_is_available) ;;
  let device := if cuda : bool then "cuda" else "cpu" in
  ' (vae, input_size, latent_size, flatten_input) <-
      global "load_vae" (ext (load_vae (Args.vae args) (Args.image_size args))) ;;
  main_body args logging_dir device vae input_size latent_size flatten_input.

End Orchestrator.

(** ** A group of workers in lockstep *)

(** The workers of a data-parallel run execute the same program.  A worker
    runs on its own until it reaches [dist.all_reduce], where it waits with
    its contribution; when every worker of the group waits, each receives the
    sum of the contributions and goes on.  [dist.get_world_size()] is the
    size of the group. *)
Inductive status (A : Type) : Type :=
| Finished (r : A + exn)
| AtAllReduce (x : R) (k : R -> prog A).

Arguments Finished {A} r.
Arguments AtAllReduce {A} x k.

Fixpoint advance {W A : Type} (h : handler W) (world_size : Z) (p : prog A) (w : W)
  : status A * W * list event :=
  match p with
  | Ret a => (Finished (inl a), w, [])
  | Raise e => (Finished (inr e), w, [])
  | Vis c k =>
      match c as c0 return (resp c0 -> prog A) -> status A * W * list event with
      | dist_all_reduce_SUM x => fun k => (AtAllReduce x k, w, [])
      | dist_get_world_size => fun k =>
          let '(st, w', tr) := advance h world_size (k world_size) w in
          (st, w', Event dist_get_world_size world_size :: tr)
      | c0 => fun k =>
          match h c0 w with
          | (inl r, w') =>
              let '(st, w'', tr) := advance h world_size (k r) w' in
              (st, w'', Event c0 r :: tr)
          | (inr e, w') => (Finished (inr e), w', [Failed c0 e])
          end
      end k
  end.

Definition worker (W A : Type) : Type := (status A * W * list event)%type.

(** The results, when every worker has finished. *)
Fixpoint collect_finished {W A : Type} (ws : list (worker W A))
  : option (list ((A + exn) * W * list event)) :=
  match ws with
  | [] => Some []
  | (Finished r, w, tr) :: ws' => option_map (cons (r, w, tr)) (collect_finished ws')
  | _ => None
  end.

(** The contributions, when every worker waits at the collective. *)
Fixpoint collect_contributions {W A : Type} (ws : list (worker W A)) : option (list R) :=
  match ws with
  | [] => Some []
  | (AtAllReduce x _, _, _) :: ws' => option_map (cons x) (collect_contributions ws')
  | _ => None
  end.

Definition sum_list (xs : list R) : R := fold_right Rplus 0%R xs.

Definition deliver {W A : Type} (h : handler W) (world_size : Z) (total : R)
    (wk : worker W A) : worker W A :=
  match wk with
  | (AtAllReduce x k, w, tr) =>
      let '(st, w', tr') := advance h world_size (k total) w in
      (st, w', tr ++ Event (dist_all_reduce_SUM x) total :: tr')%list
  | _ => wk
  end.

(** Rounds of collectives; [None] when the rounds run out or the group
    hangs (some workers wait, others have finished). *)
Fixpoint rounds {W A : Type} (fuel : nat) (h : handler W) (world_size : Z)
    (ws : list (worker W A)) : option (list ((A + exn) * W * list event)) :=
  match collect_finished ws with
  | Some results => Some results
  | None =>
      match collect_contributions ws, fuel with
      | Some xs, S fuel' =>
          rounds fuel' h world_size (map (deliver h world_size (sum_list xs)) ws)
      | _, _ => None
      end
  end.

Definition run_group {W A : Type} (fuel : nat) (h : handler W) (ps : list (prog A * W))
  : option (list ((A + exn) * W * list event)) :=
  let world_size := Z.of_nat (List.length ps) in
  rounds fuel h world_size (map (fun pw => advance h world_size (fst pw) (snd pw)) ps).

(** ** A concrete outside world *)

(** The statistics of torch over the reals: the mean, the standard deviation
    with Bessel's correction (the default of [Tensor.std]) and the mean
    squared error. *)
Definition mean_R (xs : list R) : R := (sum_list xs / INR (List.length xs))%R.

Definition std_R (xs : list R) : R :=
  let m := mean_R xs in
  sqrt (sum_list (map (fun x => (x - m) * (x - m))%R xs) / (INR (List.length xs) - 1))%R.

Definition mse_R (a b : tensor) : R :=
  mean_R (map (fun xy => (fst xy - snd xy) * (fst xy - snd xy))%R (combine (data a) (data b))).

Definition real_torch : Torch := {|
  torch_std := std_R;
  torch_mean := mean_R;
  F_mse_loss := mse_R
|}.

(** A single process on the CPU: the files it finds, the side record of the
    checkpoint, the parameters of the model, what the data loader and the VAE
    deliver and the timesteps of the scheduler. *)
Record World : Type := mkWorld {
  w_files : list string;
  w_latest : string;
  w_other_state : other_state;
  w_parameters : list tensor;
  w_batches : list (tensor * tensor);
  w_latent : tensor;
  w_timesteps : list Z
}.

Definition empty_tensor : tensor := mkTensor [] [].

Definition zeros_like (t : tensor) : tensor :=
  mkTensor (shape t) (map (fun _ => 0%R) (data t)).

(** Every call returns.  The all-reduce of a group of one returns the
    contribution; the process is the main process, the model a [Transformer],
    every step a gradient-sync boundary; the predictor and the scheduler hand
    the image back. *)
Definition answer (c : call) (w : World) : resp c :=
  match c as c0 return resp c0 with
  | torch_cuda_is_available => false
  | is_local_main_process _ | is_main_process _ | is_Transformer _
  | sync_gradients _ => true
  | os_path_exists path => existsb (String.eqb path) (w_files w)
  | load_vae _ _ => (Obj 0, 32, 4, false)
  | All_models _ _ _ _ _ _ => Obj 1
  | DPMSolverMultistepScheduler _ _ _ => Obj 2
  | Accelerator _ _ _ _ _ _ => Obj 3
  | accelerator_state _ => Obj 4
  | transforms_Compose _ => Obj 5
  | load_dataset _ _ _ | ImageFolder _ _ => Obj 6
  | DataLoader _ _ _ => Obj 7
  | load_file _ | torch_load_module _ => Obj 8
  | vae_encode _ _ => Obj 9
  | model_parameters _ => w_parameters w
  | read_file _ => w_latest w
  | torch_load_other_state _ => w_other_state w
  | accelerator_prepare _ m dataloader => (m, dataloader)
  | num_processes _ | dist_get_world_size => 1
  | len_dataloader _ => Z.of_nat (List.length (w_batches w))
  | len_dataset _ => Z.of_nat (List.length (w_batches w))
  | iter_dataloader _ => w_batches w
  | latent_sample _ => w_latent w
  | torch_randn_like t => zeros_like t
  | forward_parallel _ clean_images _ => clean_images
  | forward_diffusion _ image _ _ => image
  | scheduler_step _ _ _ sample => sample
  | scheduler_timesteps _ => w_timesteps w
  | dist_all_reduce_SUM x => x
  | global_item _ => 0%R
  | set_seed _ | logging_basicConfig | logger_info _ | set_verbosity _ _
  | os_makedirs _ | wandb_init _ _ | dataset_set_transform _ _
  | set_param_data _ _ _ _ _ | print _ | model_load_state_dict _ _
  | vae_to_device _ _ | vae_eval _ | init_trackers _ _ | torch_manual_seed _
  | torch_cuda_manual_seed _ | model_train _ | scheduler_set_timesteps _ _
  | accelerator_backward _ _ | accelerator_log _ _ _ | wandb_log _ _
  | accelerator_save_state _ _ | torch_save_other_state _ _
  | safe_blob_write _ _ | accelerator_end_training _ => tt
  end.

Fixpoint replace_nth {X : Type} (i : nat) (x : X) (xs : list X) : list X :=
  match xs, i with
  | [], _ => []
  | _ :: xs', O => x :: xs'
  | y :: xs', S i' => y :: replace_nth i' x xs'
  end.

(** [model_param.data = value] changes the parameters of the model; no other
    call changes what this world answers. *)
Definition next_world (c : call) (w : World) : World :=
  match c with
  | set_param_data _ i value _ _ =>
      mkWorld (w_files w) (w_latest w) (w_other_state w)
              (replace_nth i value (w_parameters w))
              (w_batches w) (w_latent w) (w_timesteps w)
  | _ => w
  end.

Definition scripted : answers World := fun c w => (answer c w, next_world c w).

(** ** What the properties speak about *)

(** *** Traces *)

Definition failed (ev : event) : bool :=
  match ev with Failed _ _ => true | Event _ _ => false end.

(** The result of a program followed by the run of its continuation. *)
Definition then_run {W A B : Type} (h : handler W) (f : A -> prog B)
    (r : (A + exn) * W * list event) : (B + exn) * W * list event :=
  match r with
  | (inl a, w, tr) => let '(res, w', tr') := run h (f a) w in (res, w', tr ++ tr')%list
  | (inr e, w, tr) => (inr e, w, tr)
  end.

Definition count_calls (p : call -> bool) (tr : list event) : nat :=
  List.length (filter (fun ev => p (event_call ev)) tr).

Definition is_forward_parallel (c : call) : bool :=
  match c with forward_parallel _ _ _ => true | _ => false end.

Definition is_forward_diffusion (c : call) : bool :=
  match c with forward_diffusion _ _ _ _ => true | _ => false end.

Definition is_scheduler_step (c : call) : bool :=
  match c with scheduler_step _ _ _ _ => true | _ => false end.

Definition is_all_reduce (c : call) : bool :=
  match c with dist_all_reduce_SUM _ => true | _ => false end.

Definition is_load_other_state (c : call) : bool :=
  match c with torch_load_other_state _ => true | _ => false end.

(** The calls of a trace that satisfy [p], in order. *)
Definition calls_where (p : call -> bool) (tr : list event) : list call :=
  map event_call (filter (fun ev => p (event_call ev)) tr).

Definition is_pointer_write (c : call) : bool :=
  match c with safe_blob_write _ _ => true | _ => false end.

Definition is_directory_write (c : call) : bool :=
  match c with
  | accelerator_save_state _ _ | torch_save_other_state _ _ => true
  | _ => false
  end.

(** *** A group of workers at the first normalisation call *)

Record member (W : Type) : Type := mkMember {
  m_batch : tensor;
  m_locals : Locals;
  m_world : W
}.

Arguments mkMember {W} _ _ _.
Arguments m_batch {W} _.
Arguments m_locals {W} _.
Arguments m_world {W} _.

Section Stages.

Context {torch : Torch} {W : Type}.
Variable f : answers W.
Variable n : Z.

(** The statistics a worker computes from its own latent batch. *)
Definition local_scale (x : tensor) : R := (1 / torch_std (flatten x))%R.
Definition local_bias (x : tensor) : R := (- torch_mean (flatten x))%R.

(** The normalised batch and the locals of a worker once the pair is [(s, b)]. *)
Definition normalized (g : member W) (s b : R) : tensor * Locals :=
  (tensor_mul_scalar (tensor_add_scalar (m_batch g) b) s,
   set_factors (m_locals g) (Some s) (Some b)).

(** The stages of a worker of a group of [n]: it waits at the first
    all-reduce with its local scale, then at the second with its local bias,
    and finishes with the pair of the two sums divided by [n]. *)
Definition done_with (g : member W) (s b : R) (wk : worker W (tensor * Locals)) : Prop :=
  exists w tr, wk = (Finished (inl (normalized g s b)), w, tr).

Definition waits_with_bias (g : member W) (S : R) (wk : worker W (tensor * Locals)) : Prop :=
  exists k w tr,
    wk = (AtAllReduce (local_bias (m_batch g)) k, w, tr) /\
    forall B, done_with g (S / IZR n) (B / IZR n) (deliver (lift f) n B wk).

Definition waits_with_scale (g : member W) (wk : worker W (tensor * Locals)) : Prop :=
  exists k w tr,
    wk = (AtAllReduce (local_scale (m_batch g)) k, w, tr) /\
    forall S, waits_with_bias g S (deliver (lift f) n S wk).

End Stages.

(** *** Successive normalisation calls *)

Section Frozen.

Context {torch : Torch}.

(** The successive normalisation calls of a run on the batches [xs], the
    locals going from one call to the next. *)
Fixpoint normalize_each (xs : list tensor) (l : Locals) : prog (list tensor * Locals) :=
  match xs with
  | [] => Ret ([], l)
  | x :: xs' =>
      ' (y, l) <- normalize x l ;;
      ' (ys, l) <- normalize_each xs' l ;;
      Ret (y :: ys, l)
  end.

End Frozen.

(** *** The rollout *)

(** The calls of the denoising loop over the timesteps [ts], from [image] to
    [final]: per timestep one call of the predictor on the current image,
    with the one [condition], and then one scheduler step on the predictor's
    output, which gives the next image. *)
Inductive denoise_trace (model scheduler : obj) (condition : tensor)
  : list Z -> tensor -> list event -> tensor -> Prop :=
| denoise_done (image : tensor) :
    denoise_trace model scheduler condition [] image [] image
| denoise_step (t : Z) (ts : list Z) (image model_output image' final : tensor)
               (tr : list event) :
    denoise_trace model scheduler condition ts image' tr final ->
    denoise_trace model scheduler condition (t :: ts) image
      (Event (forward_diffusion model image (repeat t (shape0 image)) condition) model_output
       :: Event (scheduler_step scheduler model_output t image) image'
       :: tr)
      final.

(** *** Checkpoints *)

(** The side record [save_checkpoint] builds from the locals. *)
Definition side_record (args : Args.Namespace) (l : Locals) : other_state :=
  mkOtherState (scaling_factor l) (bias_factor l) (global_step l)
    (if Args.use_ema args then option_map state_dict (ema_model l) else None).

(** *** Several processes on one file system *)

(** The processes of a distributed run execute the same code under different
    ranks and write to one file system.  Lines 302-316 hold no collective
    and no barrier, so there the calls of the processes interleave: a
    schedule names, call after call, the rank whose process makes its next
    call on the shared outside world.  A rank whose process has finished, or
    that does not exist, makes no call. *)
Definition step_rank {W A : Type} (h : nat -> handler W) (rank : nat)
    (ps : list (prog A)) (w : W) : list (prog A) * W * list (nat * event) :=
  match nth_error ps rank with
  | Some (Vis c k) =>
      match h rank c w with
      | (inl r, w') => (replace_nth rank (k r) ps, w', [(rank, Event c r)])
      | (inr e, w') => (replace_nth rank (Raise e) ps, w', [(rank, Failed c e)])
      end
  | _ => (ps, w, [])
  end.

Fixpoint interleave {W A : Type} (h : nat -> handler W) (schedule : list nat)
    (ps : list (prog A)) (w : W) : list (prog A) * W * list (nat * event) :=
  match schedule with
  | [] => (ps, w, [])
  | rank :: rest =>
      let '(ps1, w1, tr1) := step_rank h rank ps w in
      let '(ps2, w2, tr2) := interleave h rest ps1 w1 in
      (ps2, w2, (tr1 ++ tr2)%list)
  end.

(** [accelerator.is_main_process] holds on rank 0 alone; every other call
    is answered as [f] answers it. *)
Definition ranked {W : Type} (f : answers W) (rank : nat) : answers W :=
  fun c =>
    match c as c0 return W -> resp c0 * W with
    | is_main_process acc =>
        fun w => (Nat.eqb rank 0, snd (f (is_main_process acc) w))
    | c0 => f c0
    end.

(** Modelled from the spec: [utils.safe_blob_write] is not under src/.  By
    section 6 of the spec the marker file stores the path string it is
    given; a reader of the marker finds, after a trace, the content of the
    last write of it that returned, if there is one. *)
Definition pointer_after (latest : string) (tr : list (nat * event)) : option string :=
  fold_left
    (fun found e =>
       match snd e with
       | Event c _ =>
           match c with
           | safe_blob_write path content =>
               if String.eqb path latest then Some content else found
           | _ => found
           end
       | Failed _ _ => found
       end)
    tr None.

(** The side record of the checkpoint directory [dir] has been written. *)
Definition side_record_written (dir : string) (tr : list (nat * event)) : bool :=
  existsb
    (fun e =>
       match snd e with
       | Event c _ =>
           match c with
           | torch_save_other_state _ path =>
               String.eqb path (path_join dir "other_state.pth")
           | _ => false
           end
       | Failed _ _ => false
       end)
    tr.

(** At no moment of the trace does the marker name a directory whose side
    record has not been written. *)
Definition never_half_written (latest : string) (tr : list (nat * event)) : Prop :=
  forall (n : nat) (dir : string),
    pointer_after latest (firstn n tr) = Some dir ->
    side_record_written dir (firstn n tr) = true.

(** *** Programs that cannot return *)

(** No path through the program ends in [Ret]. *)
Fixpoint never_returns {A : Type} (p : prog A) : Prop :=
  match p with
  | Ret _ => False
  | Raise _ => True
  | Vis c k => forall r, never_returns (k r)
  end.

(** Every call the program can make satisfies [P]. *)
Fixpoint calls_satisfy {A : Type} (P : call -> Prop) (p : prog A) : Prop :=
  match p with
  | Ret _ | Raise _ => True
  | Vis c k => P c /\ forall r, calls_satisfy P (k r)
  end.

(** The calls of a training step up to the loss: none of the backward pass,
    the sync test, the telemetry sinks and the checkpoint writes. *)
Definition in_forward_pass (c : call) : Prop :=
  match c with
  | accelerator_backward _ _ | sync_gradients _
  | accelerator_log _ _ _ | wandb_log _ _
  | accelerator_save_state _ _ | torch_save_other_state _ _ | safe_blob_write _ _ => False
  | _ => True
  end.

(** *** A resumed run *)

(** A checkpoint written at step 500 with the pair [(2.0, -1.5)], and a
    process that finds it through the [latest] pointer. *)
Definition checkpoint_500 : other_state :=
  mkOtherState (Some 2%R) (Some (-3 / 2)%R) 500 None.

Definition latent_3 : tensor := mkTensor [1; 1; 1; 3]%nat [-1; 0; 1]%R.

Definition resumed_world : World :=
  mkWorld ["results/latest"; "results/checkpoint-500/model.safetensors"]
          "results/checkpoint-500
"
          checkpoint_500
          []
          [(mkTensor [1; 3; 2; 2]%nat [], mkTensor [1]%nat [7%R])]
          latent_3
          [999; 500; 0].

(** *** A restarted run with EMA *)

(** The tracker of a first run at step 500, the side record its checkpoint
    holds, and a new process whose model starts from other values. *)
Definition tracked_500 : EMAModel :=
  mkEMA [mkTensor [1%nat] [10%R]] 500 (9999 / 10000) (9999 / 10000) true 1 (3 / 4)
        (9999 / 10000).

Definition saved_500 : other_state :=
  side_record (args_with true)
    (mkLocals 500 0%R (Some 2%R) (Some (-3 / 2)%R) (Some tracked_500)).

Definition restarted_world : World :=
  mkWorld [] "" saved_500 [mkTensor [1%nat] [0%R]] [] empty_tensor [].

(** ** [parse_args] and the script *)

(** [args.local_rank = r] *)
Definition set_local_rank (a : Args.Namespace) (r : Z) : Args.Namespace := {|
  Args.seed := Args.seed a;
  Args.output_dir := Args.output_dir a;
  Args.cache_dir := Args.cache_dir a;
  Args.local_rank := r;
  Args.dataset_name := Args.dataset_name a;
  Args.dataset_config_name := Args.dataset_config_name a;
  Args.train_data_dir := Args.train_data_dir a;
  Args.model := Args.model a;
  Args.vae := Args.vae a;
  Args.image_size := Args.image_size a;
  Args.num_classes := Args.num_classes a;
  Args.dropout := Args.dropout a;
  Args.batch_size := Args.batch_size a;
  Args.num_epochs := Args.num_epochs a;
  Args.gradient_accumulation_steps := Args.gradient_accumulation_steps a;
  Args.dataloader_num_workers := Args.dataloader_num_workers a;
  Args.learning_rate := Args.learning_rate a;
  Args.lr_warmup_steps := Args.lr_warmup_steps a;
  Args.use_ema := Args.use_ema a;
  Args.ema_inv_gamma := Args.ema_inv_gamma a;
  Args.ema_power := Args.ema_power a;
  Args.ema_max_decay := Args.ema_max_decay a;
  Args.logger := Args.logger a;
  Args.logging_dir := Args.logging_dir a;
  Args.wandb_project := Args.wandb_project a;
  Args.wandb_entity := Args.wandb_entity a;
  Args.log_every := Args.log_every a;
  Args.mixed_precision := Args.mixed_precision a;
  Args.prediction_type := Args.prediction_type a;
  Args.ddpm_num_steps := Args.ddpm_num_steps a;
  Args.ddpm_num_inference_steps := Args.ddpm_num_inference_steps a;
  Args.ddpm_beta_schedule := Args.ddpm_beta_schedule a;
  Args.ddpm_batch_mul := Args.ddpm_batch_mul a;
  Args.checkpointing_steps := Args.checkpointing_steps a;
  Args.checkpoint := Args.checkpoint a
|}.

(** [args.log_every = a; args.checkpointing_steps = b] *)
Definition set_cadence (a : Args.Namespace) (log_every checkpointing_steps : Z)
    : Args.Namespace := {|
  Args.seed := Args.seed a;
  Args.output_dir := Args.output_dir a;
  Args.cache_dir := Args.cache_dir a;
  Args.local_rank := Args.local_rank a;
  Args.dataset_name := Args.dataset_name a;
  Args.dataset_config_name := Args.dataset_config_name a;
  Args.train_data_dir := Args.train_data_dir a;
  Args.model := Args.model a;
  Args.vae := Args.vae a;
  Args.image_size := Args.image_size a;
  Args.num_classes := Args.num_classes a;
  Args.dropout := Args.dropout a;
  Args.batch_size := Args.batch_size a;
  Args.num_epochs := Args.num_epochs a;
  Args.gradient_accumulation_steps := Args.gradient_accumulation_steps a;
  Args.dataloader_num_workers := Args.dataloader_num_workers a;
  Args.learning_rate := Args.learning_rate a;
  Args.lr_warmup_steps := Args.lr_warmup_steps a;
  Args.use_ema := Args.use_ema a;
  Args.ema_inv_gamma := Args.ema_inv_gamma a;
  Args.ema_power := Args.ema_power a;
  Args.ema_max_decay := Args.ema_max_decay a;
  Args.logger := Args.logger a;
  Args.logging_dir := Args.logging_dir a;
  Args.wandb_project := Args.wandb_project a;
  Args.wandb_entity := Args.wandb_entity a;
  Args.log_every := log_every;
  Args.mixed_precision := Args.mixed_precision a;
  Args.prediction_type := Args.prediction_type a;
  Args.ddpm_num_steps := Args.ddpm_num_steps a;
  Args.ddpm_num_inference_steps := Args.ddpm_num_inference_steps a;
  Args.ddpm_beta_schedule := Args.ddpm_beta_schedule a;
  Args.ddpm_batch_mul := Args.ddpm_batch_mul a;
  Args.checkpointing_steps := checkpointing_steps;
  Args.checkpoint := Args.checkpoint a
|}.

Section ParseArgs.

(** The builtin [int] on a string: its value, or [None] where it raises
    [ValueError]. *)
Variable int_of_str : string -> option Z.

(** Lines 92-100 of [parse_args]: [parsed] is what [parser.parse_args()]
    returns, [LOCAL_RANK] the value of that environment variable, if set.
    [os.environ.get("LOCAL_RANK", -1)] is the string or the int [-1], and
    [int] of it the rank from the environment. *)
Definition parse_args (parsed : Args.Namespace) (LOCAL_RANK : option string)
    : prog Args.Namespace :=
  env_local_rank <-
    match LOCAL_RANK with
    | None => Ret (-1)
    | Some s =>
        match int_of_str s with
        | Some r => Ret r
        | None => Raise (ValueError (PFormat [PStr "invalid literal for int(): "; PStr s]))
        end
    end ;;
  let args :=
    if negb (env_local_rank =? -1) && negb (env_local_rank =? Args.local_rank parsed)
    then set_local_rank parsed env_local_rank
    else parsed in
  match Args.dataset_name args, Args.train_data_dir args with
  | None, None =>
      Raise (ValueError
               (PStr "You must specify either a dataset name from the hub or a train data directory."))
  | _, _ => Ret args
  end.

End ParseArgs.

(** [int] on decimal literals: an optional minus sign and digits. *)
Definition int_decimal (s : string) : option Z :=
  option_map Z.of_int (NilZero.int_of_string s).

(** ** More about the blocks *)

(** The directory of the checkpoint of the current step, [save_path] of line
    313. *)
Definition save_path_of (args : Args.Namespace) (l : Locals) : string :=
  path_join (Args.output_dir args) ("checkpoint-" ++ str_of_int (global_step l)).

(** A program makes at most one call that satisfies [p], and once it has
    made it, it never returns. *)
Fixpoint once_then_stop {A : Type} (p : call -> bool) (q : prog A) : Prop :=
  match q with
  | Ret _ | Raise _ => True
  | Vis c k =>
      if p c
      then forall r, never_returns (k r) /\ calls_satisfy (fun c' => p c' = false) (k r)
      else forall r, once_then_stop p (k r)
  end.

Definition is_vae_encode (c : call) : bool :=
  match c with vae_encode _ _ => true | _ => false end.

Definition is_set_param_data (c : call) : bool :=
  match c with set_param_data _ _ _ _ _ => true | _ => false end.

Definition touches_model_files (c : call) : bool :=
  match c with
  | os_path_exists _ | load_file _ | torch_load_module _ | model_load_state_dict _ _ => true
  | _ => false
  end.

Definition writes_checkpoint (c : call) : bool :=
  match c with
  | accelerator_save_state _ _ | torch_save_other_state _ _ | safe_blob_write _ _ => true
  | _ => false
  end.

(** A world that answers as [w] does and never changes. *)
Definition fixed (w : World) : answers unit := fun c _ => (answer c w, tt).

(** A restarted process whose model has two parameters, one more than the
    checkpoint has shadow values. *)
Definition wider_world : World :=
  mkWorld [] "" saved_500 [mkTensor [1%nat] [0%R]; mkTensor [1%nat] [5%R]] []
          empty_tensor [].

(** Every value the program can return satisfies [Q]. *)
Fixpoint returns_satisfy {A : Type} (Q : A -> Prop) (p : prog A) : Prop :=
  match p with
  | Ret a => Q a
  | Raise _ => True
  | Vis c k => forall r, returns_satisfy Q (k r)
  end.

(** An ASCII character other than white space, and a string of such
    characters, as ["checkpoint-"] followed by a decimal number is. *)
Definition is_plain (c : ascii) : bool :=
  Nat.ltb (nat_of_ascii c) 128 && negb (is_space c).

Definition plain (s : string) : Prop :=
  forall c, In c (list_ascii_of_string s) -> is_plain c = true.

Definition is_side_record_save (c : call) : bool :=
  match c with torch_save_other_state _ _ => true | _ => false end.

(** The calls of a training step that come after the loss: the backward
    pass, the gradient-sync test, the telemetry sinks and the checkpoint
    writes. *)
Definition after_loss (c : call) : bool :=
  match c with
  | accelerator_backward _ _ | sync_gradients _
  | accelerator_log _ _ _ | wandb_log _ _
  | accelerator_save_state _ _ | torch_save_other_state _ _ | safe_blob_write _ _ => true
  | _ => false
  end.

(** * Properties *)

(** ** Python pieces on examples *)

Example str_of_int_500 : str_of_int 500 = "500".
Proof. reflexivity. Qed.

Example path_join_latest : path_join "results" "latest" = "results/latest".
Proof. reflexivity. Qed.

Example strip_line : strip "  results/checkpoint-500
" = "results/checkpoint-500".
Proof. reflexivity. Qed.

(** White space beyond ASCII is stripped too (here U+00A0 in front, U+2003
    and a newline behind); the byte [A0] at the end of another character
    (U+00E0, [C3 A0]) is not. *)
Example strip_unicode :
  strip (utf8 [194; 160] ++ "out/checkpoint-5" ++ utf8 [226; 128; 131; 10])
  = "out/checkpoint-5" /\
  strip (utf8 [195; 160] ++ "/x" ++ utf8 [195; 160]) = utf8 [195; 160] ++ "/x" ++ utf8 [195; 160].
Proof. split; reflexivity. Qed.

(** Each of the 29 white-space characters is stripped at both ends, and
    their neighbours in the code charts (U+001B, U+0021, U+0084, U+00A1,
    U+1681, U+200B, U+2027, U+202A, U+205E, U+2060, U+3001) are not. *)
Example strip_table :
  forallb (fun bytes => String.eqb (strip (utf8 bytes ++ "a" ++ utf8 bytes)) "a")
    [ [9]; [10]; [11]; [12]; [13]; [28]; [29]; [30]; [31]; [32];
      [194; 133]; [194; 160]; [225; 154; 128];
      [226; 128; 128]; [226; 128; 129]; [226; 128; 130]; [226; 128; 131];
      [226; 128; 132]; [226; 128; 133]; [226; 128; 134]; [226; 128; 135];
      [226; 128; 136]; [226; 128; 137]; [226; 128; 138];
      [226; 128; 168]; [226; 128; 169]; [226; 128; 175];
      [226; 129; 159]; [227; 128; 128] ] = true /\
  forallb (fun bytes =>
             String.eqb (strip (utf8 bytes ++ "a" ++ utf8 bytes))
                        (utf8 bytes ++ "a" ++ utf8 bytes))
    [ [27]; [33]; [194; 132]; [194; 161]; [225; 154; 129];
      [226; 128; 139]; [226; 128; 167]; [226; 128; 170];
      [226; 129; 158]; [226; 129; 160]; [227; 128; 129] ] = true.
Proof. split; reflexivity. Qed.

Example load_vae_unbound : bound "load_vae" = false /\ bound "gnorm" = false /\ bound "set_seed" = true.
Proof. repeat split; reflexivity. Qed.

(** ** How [run] goes through a program *)

Lemma run_bind {W A B : Type} (h : handler W) (p : prog A) (f : A -> prog B) (w : W) :
  run h (bind p f) w = then_run h f (run h p w).
Proof.
  revert w. induction p as [a|e|c k IH]; intro w; simpl.
  - destruct (run h (f a) w) as [[res w'] tr]. reflexivity.
  - reflexivity.
  - destruct (h c w) as [[r|e] w']; [|reflexivity].
    rewrite IH. destruct (run h (k r) w') as [[[a|e] w''] tr]; simpl; [|reflexivity].
    destruct (run h (f a) w'') as [[res w3] tr']. reflexivity.
Qed.

Lemma run_ext {W : Type} (h : handler W) (c : call) (w : W) :
  run h (ext c) w =
  match h c w with
  | (inl r, w') => (inl r, w', [Event c r])
  | (inr e, w') => (inr e, w', [Failed c e])
  end.
Proof. simpl. destruct (h c w) as [[r|e] w']; reflexivity. Qed.

Lemma run_ext_lift {W : Type} (f : answers W) (c : call) (w : W) :
  run (lift f) (ext c) w = (inl (fst (f c w)), snd (f c w), [Event c (fst (f c w))]).
Proof. rewrite run_ext. unfold lift. destruct (f c w); reflexivity. Qed.

Lemma lift_eq {W : Type} (f : answers W) (c : call) (w : W) :
  lift f c w = (inl (fst (f c w)), snd (f c w)).
Proof. unfold lift. destruct (f c w); reflexivity. Qed.

Lemma global_bound {A : Type} (name : string) (p : prog A) :
  bound name = true -> global name p = p.
Proof. unfold global. intros ->. reflexivity. Qed.

Lemma global_unbound {A : Type} (name : string) (p : prog A) :
  bound name = false -> global name p = Raise (NameError name).
Proof. unfold global. intros ->. reflexivity. Qed.

(** ** [main] stops at line 107 *)

(** C10: [main] uses the name [load_vae] at line 107, in front of everything
    that builds the model or trains; the module neither defines nor imports
    it.  So, whatever the arguments and the outside world, [main] never
    returns; the only external calls it makes are [set_seed] and
    [torch.cuda.is_available] (no training step, normalisation or checkpoint
    write); and when those two return, the run ends with
    [NameError: load_vae]. *)
Theorem main_raises_NameError_load_vae :
  forall (T : Torch) (W : Type) (h : handler W) (args : Args.Namespace) (w : W),
    bound "load_vae" = false /\
    let '(res, _, tr) := run h (main args) w in
    (forall u, res <> inl u) /\
    (forall ev, In ev tr ->
       event_call ev = set_seed (Args.seed args) \/
       event_call ev = torch_cuda_is_available) /\
    (existsb failed tr = false -> res = inr (NameError "load_vae")).
Proof.
  intros T W h args w. split; [reflexivity|].
  unfold main.
  rewrite run_bind, (global_bound "set_seed") by reflexivity.
  rewrite run_ext.
  destruct (h (set_seed (Args.seed args)) w) as [[[]|e1] w1]; simpl.
  - destruct (h torch_cuda_is_available w1) as [[cuda|e2] w2]; simpl.
    + repeat split.
      * discriminate.
      * intros ev [<-|[<-|[]]]; simpl; auto.
    + repeat split.
      * discriminate.
      * intros ev [<-|[<-|[]]]; simpl; auto.
      * discriminate.
  - repeat split.
    + discriminate.
    + intros ev [<-|[]]; simpl; auto.
    + discriminate.
Qed.

Example main_on_defaults :
  run (lift scripted) (@main real_torch default_args) resumed_world =
  (inr (NameError "load_vae"), resumed_world,
   [Event (set_seed 0) tt; Event torch_cuda_is_available false]).
Proof. reflexivity. Qed.

(** ** The first normalisation call, across the workers *)

Section FirstCall.

Context {torch : Torch} {W : Type}.
Variable f : answers W.
Variable n : Z.
Hypothesis n_nonzero : n <> 0.

Lemma normalize_first_call (g : member W) :
  scaling_factor (m_locals g) = None ->
  waits_with_scale f n g (advance (lift f) n (normalize (m_batch g) (m_locals g)) (m_world g)).
Proof.
  intro Hnone. unfold normalize. rewrite Hnone. simpl.
  do 3 eexists. split; [reflexivity|]. intro S. simpl.
  do 3 eexists. split; [reflexivity|]. intro B. simpl.
  unfold float_div. rewrite (proj2 (Z.eqb_neq n 0) n_nonzero). simpl.
  rewrite (proj2 (Z.eqb_neq n 0) n_nonzero). simpl.
  unfold lift.
  destruct (f (logger_info _) (m_world g)) as [[] w']. simpl.
  do 2 eexists. reflexivity.
Qed.

Lemma contributions_of (x : member W -> R) (group : list (member W))
    (ws : list (worker W (tensor * Locals))) :
  Forall2 (fun g wk => exists k w tr, wk = (AtAllReduce (x g) k, w, tr)) group ws ->
  collect_contributions ws = Some (map x group).
Proof.
  induction 1 as [|g wk group ws (k & w & tr & ->) _ IH]; simpl.
  - reflexivity.
  - rewrite IH. reflexivity.
Qed.

Lemma waiting_not_finished (x : member W -> R) (group : list (member W))
    (ws : list (worker W (tensor * Locals))) :
  Forall2 (fun g wk => exists k w tr, wk = (AtAllReduce (x g) k, w, tr)) group ws ->
  group <> [] ->
  collect_finished ws = None.
Proof.
  destruct 1 as [|g wk group ws (k & w & tr & ->) _]; [congruence|reflexivity].
Qed.

Lemma finished_of (s b : R) (group : list (member W))
    (ws : list (worker W (tensor * Locals))) :
  Forall2 (fun g wk => done_with g s b wk) group ws ->
  exists results,
    collect_finished ws = Some results /\
    Forall2 (fun g res => fst (fst res) = inl (normalized g s b)) group results.
Proof.
  induction 1 as [|g wk group ws (w & tr & ->) _ (results & Hres & IH)]; simpl.
  - exists []. split; [reflexivity|constructor].
  - rewrite Hres. eexists. split; [reflexivity|]. constructor; [reflexivity|exact IH].
Qed.

Lemma Forall2_deliver (P Q : member W -> worker W (tensor * Locals) -> Prop) (total : R)
    (group : list (member W)) (ws : list (worker W (tensor * Locals))) :
  (forall g wk, P g wk -> Q g (deliver (lift f) n total wk)) ->
  Forall2 P group ws ->
  Forall2 Q group (map (deliver (lift f) n total) ws).
Proof.
  intros HPQ. induction 1; simpl; constructor; auto.
Qed.

Lemma rounds_first_call (group : list (member W)) (ws : list (worker W (tensor * Locals)))
    (fuel : nat) :
  Forall2 (waits_with_scale f n) group ws ->
  (2 <= fuel)%nat ->
  exists results,
    rounds fuel (lift f) n ws = Some results /\
    Forall2 (fun g res =>
               fst (fst res) =
               inl (normalized g
                      (sum_list (map (fun g => local_scale (m_batch g)) group) / IZR n)
                      (sum_list (map (fun g => local_bias (m_batch g)) group) / IZR n)))
            group results.
Proof.
  intros Hws Hfuel.
  destruct group as [|g0 group0].
  - inversion Hws; subst. exists []. destruct fuel; simpl; split; constructor.
  - set (group := g0 :: group0) in *.
    assert (Hne : group <> []) by (subst group; discriminate).
    destruct fuel as [|[|fuel]]; try lia.
    assert (H1 : Forall2 (fun g wk => exists k w tr,
                            wk = (AtAllReduce (local_scale (m_batch g)) k, w, tr)) group ws).
    { eapply Forall2_impl; [|exact Hws]. intros g wk (k & w & tr & -> & _). eauto. }
    cbn [rounds].
    rewrite (waiting_not_finished _ _ _ H1 Hne), (contributions_of _ _ _ H1).
    set (S := sum_list (map (fun g => local_scale (m_batch g)) group)).
    assert (Hws2 : Forall2 (fun g wk => waits_with_bias f n g S wk) group
                     (map (deliver (lift f) n S) ws)).
    { eapply Forall2_deliver; [|exact Hws]. intros g wk (k & w & tr & -> & H). apply H. }
    assert (H2 : Forall2 (fun g wk => exists k w tr,
                            wk = (AtAllReduce (local_bias (m_batch g)) k, w, tr)) group
                   (map (deliver (lift f) n S) ws)).
    { eapply Forall2_impl; [|exact Hws2]. intros g wk (k & w & tr & -> & _). eauto. }
    rewrite (waiting_not_finished _ _ _ H2 Hne), (contributions_of _ _ _ H2).
    set (B := sum_list (map (fun g => local_bias (m_batch g)) group)).
    assert (Hws3 : Forall2 (fun g wk => done_with g (S / IZR n) (B / IZR n) wk) group
                     (map (deliver (lift f) n B) (map (deliver (lift f) n S) ws))).
    { eapply Forall2_deliver; [|exact Hws2]. intros g wk (k & w & tr & -> & H). apply H. }
    destruct (finished_of _ _ _ _ Hws3) as (results & Hres & HF).
    exists results. split; [|exact HF].
    destruct fuel; simpl; rewrite Hres; reflexivity.
Qed.

End FirstCall.

(** C3: on the first normalisation call of a run (the scale is unset on
    every worker) each worker takes [1/std] and [-mean] of all the elements of
    its own latent batch, both scalars are summed over the workers by the
    all-reduce and divided by the world size: every worker finishes the call
    with the same pair, the arithmetic mean of the workers' local statistics,
    and has normalised its batch with it. *)
Theorem first_normalization_global_mean :
  forall (T : Torch) (W : Type) (f : answers W) (group : list (member W)) (fuel : nat),
    Forall (fun g => scaling_factor (m_locals g) = None) group ->
    (2 <= fuel)%nat ->
    let n := IZR (Z.of_nat (List.length group)) in
    let scale := (sum_list (map (fun g => local_scale (m_batch g)) group) / n)%R in
    let bias := (sum_list (map (fun g => local_bias (m_batch g)) group) / n)%R in
    exists results,
      run_group fuel (lift f)
        (map (fun g => (normalize (m_batch g) (m_locals g), m_world g)) group)
      = Some results /\
      Forall2 (fun g res => fst (fst res) = inl (normalized g scale bias)) group results.
Proof.
  intros T W f group fuel Hnone Hfuel n scale bias.
  unfold run_group. rewrite length_map, map_map. cbn [fst snd].
  destruct group as [|g0 group0].
  - exists []. destruct fuel; simpl; split; constructor.
  - subst n scale bias. apply rounds_first_call.
    + set (k := Z.of_nat (List.length (g0 :: group0))).
      assert (Hk : k <> 0) by (subst k; cbn [List.length]; lia).
      clearbody k.
      induction Hnone as [|g group Hg _ IH]; simpl; constructor; auto.
      apply normalize_first_call; assumption.
    + exact Hfuel.
Qed.

Lemma first_normalization_global_mean_witness :
  exists results,
    run_group 2 (lift scripted)
      (map (fun g => (@normalize real_torch (m_batch g) (m_locals g), m_world g))
           [ mkMember (mkTensor [3%nat] [1; 2; 3]%R) (mkLocals 0 0 None None None)
               (mkWorld [] "" (mkOtherState None None 0 None) [] [] empty_tensor []);
             mkMember (mkTensor [3%nat] [4; 6; 8]%R) (mkLocals 0 0 None None None)
               (mkWorld [] "" (mkOtherState None None 0 None) [] [] empty_tensor []) ])
    = Some results /\
    Forall2 (fun g res =>
               fst (fst res) =
               inl (normalized g
                      ((sum_list [@local_scale real_torch (mkTensor [3%nat] [1; 2; 3]%R);
                                  @local_scale real_torch (mkTensor [3%nat] [4; 6; 8]%R)]
                        / IZR 2)%R)
                      ((sum_list [@local_bias real_torch (mkTensor [3%nat] [1; 2; 3]%R);
                                  @local_bias real_torch (mkTensor [3%nat] [4; 6; 8]%R)]
                        / IZR 2)%R)))
      [ mkMember (mkTensor [3%nat] [1; 2; 3]%R) (mkLocals 0 0 None None None)
          (mkWorld [] "" (mkOtherState None None 0 None) [] [] empty_tensor []);
        mkMember (mkTensor [3%nat] [4; 6; 8]%R) (mkLocals 0 0 None None None)
          (mkWorld [] "" (mkOtherState None None 0 None) [] [] empty_tensor []) ]
      results.
Proof.
  apply (first_normalization_global_mean real_torch World scripted
           [ mkMember (mkTensor [3%nat] [1; 2; 3]%R) (mkLocals 0 0 None None None)
               (mkWorld [] "" (mkOtherState None None 0 None) [] [] empty_tensor []);
             mkMember (mkTensor [3%nat] [4; 6; 8]%R) (mkLocals 0 0 None None None)
               (mkWorld [] "" (mkOtherState None None 0 None) [] [] empty_tensor []) ]
           2%nat).
  - repeat constructor.
  - lia.
Defined.

(** ** The transform, once set *)

Section FrozenLemmas.

Context {torch : Torch}.

Lemma normalize_when_set {W : Type} (h : handler W) (l : Locals) (s b : R)
    (x : tensor) (w : W) :
  scaling_factor l = Some s ->
  bias_factor l = Some b ->
  run h (normalize x l) w =
  (inl (tensor_mul_scalar (tensor_add_scalar x b) s, l), w, []).
Proof.
  intros Hs Hb. unfold normalize. rewrite Hs. simpl. rewrite Hs, Hb. reflexivity.
Qed.

(** X8: a normalisation call that returns leaves the pair set and has
    applied it: whatever the locals before and whatever the outside world
    answered, the locals after hold a scale [s] and a bias [b], and the
    batch returned is [(x + b) * s] with exactly that pair. *)
Lemma normalize_returns_set {W : Type} (h : handler W) (l l' : Locals)
    (x y : tensor) (w w' : W) (tr : list event) :
  run h (normalize x l) w = (inl (y, l'), w', tr) ->
  exists s b,
    scaling_factor l' = Some s /\ bias_factor l' = Some b /\
    y = tensor_mul_scalar (tensor_add_scalar x b) s.
Proof.
  unfold normalize. rewrite run_bind.
  destruct (run h _ w) as [[[l1|e] w1] tr1]; simpl; [|discriminate].
  destruct (bias_factor l1) as [b|] eqn:Hb; [|simpl; discriminate].
  destruct (scaling_factor l1) as [s|] eqn:Hs; simpl; [|discriminate].
  intro H. injection H as <- <- _ _. exists s, b. auto.
Qed.

End FrozenLemmas.

(** C4: once the pair [(scale, bias)] is set it stays: whatever the batches
    of the following normalisation calls and whatever the outside world, each
    call makes no external call, leaves the locals (and so the pair) as they
    are and returns its batch transformed as [(latent + bias) * scale]. *)
Theorem normalization_frozen_once_set :
  forall (T : Torch) (W : Type) (h : handler W) (l : Locals) (s b : R)
         (xs : list tensor) (w : W),
    scaling_factor l = Some s ->
    bias_factor l = Some b ->
    run h (normalize_each xs l) w =
    (inl (map (fun x => tensor_mul_scalar (tensor_add_scalar x b) s) xs, l), w, []).
Proof.
  intros T W h l s b xs w Hs Hb. induction xs as [|x xs IH]; simpl.
  - reflexivity.
  - rewrite run_bind, (normalize_when_set h l s b x w Hs Hb). simpl.
    rewrite run_bind, IH. reflexivity.
Qed.

Lemma normalization_frozen_once_set_witness :
  run (lift scripted)
      (@normalize_each real_torch
         [mkTensor [2%nat] [1; 2]%R; mkTensor [1%nat] [5]%R]
         (mkLocals 7 0 (Some 2%R) (Some (-3 / 2)%R) None))
      (mkWorld [] "" (mkOtherState None None 0 None) [] [] empty_tensor []) =
  (inl (map (fun x => tensor_mul_scalar (tensor_add_scalar x (-3 / 2)%R) 2%R)
            [mkTensor [2%nat] [1; 2]%R; mkTensor [1%nat] [5]%R],
        mkLocals 7 0 (Some 2%R) (Some (-3 / 2)%R) None),
   mkWorld [] "" (mkOtherState None None 0 None) [] [] empty_tensor [], []).
Proof.
  apply (normalization_frozen_once_set real_torch World (lift scripted)
           (mkLocals 7 0 (Some 2%R) (Some (-3 / 2)%R) None) 2%R (-3 / 2)%R);
    reflexivity.
Defined.

(** ** The reverse-diffusion rollout *)

Lemma denoise_trace_counts (model scheduler : obj) (condition : tensor)
    (ts : list Z) (image final : tensor) (tr : list event) :
  denoise_trace model scheduler condition ts image tr final ->
  count_calls is_forward_parallel tr = 0%nat /\
  count_calls is_forward_diffusion tr = List.length ts /\
  count_calls is_scheduler_step tr = List.length ts.
Proof.
  unfold count_calls.
  induction 1 as [|t ts image out image' final tr _ (IH0 & IH1 & IH2)]; simpl; auto.
Qed.

Lemma denoise_loop_run {W : Type} (f : answers W) (model scheduler : obj)
    (condition : tensor) (ts : list Z) :
  forall (image : tensor) (w : W),
  exists final w' tr,
    run (lift f)
        (for_each ts
           (fun t image =>
              model_output <- ext (forward_diffusion model image
                                     (repeat t (shape0 image)) condition) ;;
              ext (scheduler_step scheduler model_output t image))
           image) w
    = (inl final, w', tr) /\
    denoise_trace model scheduler condition ts image tr final.
Proof.
  induction ts as [|t ts IH]; intros image w.
  - exists image, w, []. split; [reflexivity|constructor].
  - cbn [for_each]. rewrite run_bind. cbn [bind ext run].
    rewrite lift_eq.
    set (a1 := f (forward_diffusion model image (repeat t (shape0 image)) condition) w).
    rewrite lift_eq.
    set (a2 := f (scheduler_step scheduler (fst a1) t image) (snd a1)).
    cbn [then_run].
    destruct (IH (fst a2) (snd a2)) as (final & w' & tr & Hrun & Htr).
    match type of Hrun with run _ ?q _ = _ =>
      match goal with |- context [run (lift f) ?p (snd a2)] => change p with q end
    end.
    rewrite Hrun.
    do 3 eexists. split; [reflexivity|]. constructor. exact Htr.
Qed.

(** C7: in a world whose calls return, the rollout of a training step makes
    these calls in this order: [torch.randn_like] on the normalised latent
    (the start image has its shape), the predictor's conditioning
    ([forward_parallel]) once, [set_timesteps] with the configured number of
    inference steps, the read of the scheduler's timesteps, and then for each
    timestep one predictor call with that same conditioning followed by one
    scheduler step that yields the next image.  The conditioning is computed
    exactly once; the predictor and the scheduler step are each called once
    per timestep. *)
Theorem rollout_structure :
  forall (W : Type) (f : answers W) (args : Args.Namespace)
         (model scheduler : obj) (clean_images label : tensor) (w : W),
  exists noise condition timesteps steps final w',
    let tr :=
      Event (torch_randn_like clean_images) noise
      :: Event (forward_parallel model clean_images label) condition
      :: Event (scheduler_set_timesteps scheduler (Args.ddpm_num_inference_steps args)) tt
      :: Event (scheduler_timesteps scheduler) timesteps
      :: steps in
    run (lift f) (reverse_diffusion args model scheduler clean_images label) w
    = (inl final, w', tr) /\
    denoise_trace model scheduler condition timesteps noise steps final /\
    count_calls is_forward_parallel tr = 1%nat /\
    count_calls is_forward_diffusion tr = List.length timesteps /\
    count_calls is_scheduler_step tr = List.length timesteps.
Proof.
  intros W f args model scheduler clean_images label w.
  unfold reverse_diffusion.
  rewrite (global_bound "torch") by reflexivity.
  cbn [bind ext run].
  rewrite lift_eq.
  set (a1 := f (torch_randn_like clean_images) w).
  rewrite lift_eq.
  set (a2 := f (forward_parallel model clean_images label) (snd a1)).
  rewrite lift_eq.
  set (a3 := f (scheduler_set_timesteps scheduler (Args.ddpm_num_inference_steps args)) (snd a2)).
  rewrite lift_eq.
  set (a4 := f (scheduler_timesteps scheduler) (snd a3)).
  destruct (denoise_loop_run f model scheduler (fst a2) (fst a4) (fst a1) (snd a4))
    as (final & w' & steps & Hrun & Htr).
  match type of Hrun with run _ ?q _ = _ =>
    match goal with |- context [run (lift f) ?p (snd a4)] => change p with q end
  end.
  rewrite Hrun.
  exists (fst a1), (fst a2), (fst a4), steps, final, w'.
  destruct (fst a3).
  split; [reflexivity|]. split; [exact Htr|].
  destruct (denoise_trace_counts _ _ _ _ _ _ _ Htr) as (H0 & H1 & H2).
  unfold count_calls in *. simpl. rewrite H0, H1, H2. auto.
Qed.

(** ** Checkpoints *)

Ltac step_call :=
  match goal with
  | |- context [match ?x with (_, _) => _ end] =>
      let r := fresh "r" in
      let e := fresh "e" in
      let w := fresh "w" in
      destruct x as [[r|e] w]; [cbn in r; destruct r|];
      rewrite ?global_bound by reflexivity; cbn [bind ext run]
  end.

Ltac split_trace Heq before :=
  repeat (destruct before as [|? before];
          [ cbn [app] in Heq; injection Heq as <- <-
          | cbn [app] in Heq; injection Heq as <- Heq ]);
  try (destruct before; discriminate Heq).

(** The order within one process.  In the checkpointing branch, whatever
    the outside world does, a write of the [latest] pointer names the
    checkpoint directory of the current step, comes after the model and
    optimizer state were saved there and, on the main process, after the
    side record (scaling factor, bias factor, steps, the EMA state if EMA is
    used) was written; every earlier call has returned, and no write into
    the directory follows it.  When nothing fails the pointer is written. *)
Theorem latest_pointer_written_last :
  forall (W : Type) (h : handler W) (args : Args.Namespace)
         (accelerator : obj) (l : Locals) (w : W),
    let save_path :=
      path_join (Args.output_dir args) ("checkpoint-" ++ str_of_int (global_step l)) in
    let latest := path_join (Args.output_dir args) "latest" in
    let '(res, _, tr) := run h (checkpoint_branch args accelerator l) w in
    (forall before ev after,
       tr = (before ++ ev :: after)%list ->
       is_pointer_write (event_call ev) = true ->
       event_call ev = safe_blob_write latest save_path /\
       In (Event (accelerator_save_state accelerator save_path) tt) before /\
       (exists is_main,
          In (Event (is_main_process accelerator) is_main) before /\
          (is_main = true ->
           In (Event (torch_save_other_state (side_record args l)
                        (path_join save_path "other_state.pth")) tt) before)) /\
       existsb failed before = false /\
       forallb (fun e => negb (is_directory_write (event_call e))) after = true) /\
    (existsb failed tr = false ->
     (Args.use_ema args = true -> ema_model l <> None) ->
     res = inl tt /\
     existsb (fun e => is_pointer_write (event_call e)) tr = true).
Proof.
  intros W h args accelerator l w save_path latest.
  unfold checkpoint_branch, save_checkpoint, side_record.
  fold save_path. fold latest.
  rewrite !global_bound by reflexivity.
  destruct (Args.use_ema args) eqn:Hema; destruct (ema_model l) as [ema|] eqn:Hl;
    cbn [bind ext run option_map].
  all: repeat step_call.
  all: split;
    [ intros before ev after Heq Hp; split_trace Heq before; try discriminate Hp;
      (split; [reflexivity|]); (split; [simpl; auto|]);
      (split;
       [ first [ solve [exists true; split; [simpl; auto 6 | intros _; simpl; auto 6]]
               | solve [exists false; split; [simpl; auto 6 | discriminate]] ]
       | split; reflexivity ])
    | intros Hf Hm;
      first [ discriminate Hf
            | exfalso; apply Hm; reflexivity
            | split; reflexivity ] ].
Qed.

(** A process that runs alone interleaves with nobody: the schedule that
    always names it gives the calls of [run]. *)
Lemma interleave_alone {W A : Type} (h : handler W) (p : prog A) :
  forall w, exists n,
    map snd (snd (interleave (fun _ => h) (repeat 0%nat n) [p] w)) = snd (run h p w).
Proof.
  induction p as [a|e|c k IH]; intro w.
  - exists 0%nat. reflexivity.
  - exists 0%nat. reflexivity.
  - destruct (h c w) as [[r|e] w'] eqn:E.
    + destruct (IH r w') as [n Hn]. exists (S n).
      cbn [repeat interleave step_rank nth_error run]. rewrite E.
      cbn [replace_nth].
      destruct (interleave (fun _ => h) (repeat 0%nat n) [k r] w') as [[ps2 w2] tr2].
      destruct (run h (k r) w') as [[res w''] tr]. simpl in *. rewrite Hn. reflexivity.
    + exists 1%nat. cbn [repeat interleave step_rank nth_error run]. rewrite E. reflexivity.
Qed.

(** C8, as the code has it: the pointer can be out before the side record.
    Every rank writes the [latest] pointer (line 315 is outside the
    [is_main_process] test of line 305) and only rank 0 writes the side
    record, with nothing that makes the others wait for it.  With two
    processes in the checkpointing branch of the same step and calls that
    return: once both are back from [accelerator.save_state], rank 1 goes on
    alone, finds that it is not the main process and writes the pointer.  At
    that moment the pointer names the directory of the step, the side record
    of that directory is not written, and rank 0 has yet to take the test of
    line 305. *)
Theorem pointer_published_before_side_record :
  forall (W : Type) (f : answers W) (args : Args.Namespace) (accelerator : obj)
         (l : Locals) (w : W),
    let save_path :=
      path_join (Args.output_dir args) ("checkpoint-" ++ str_of_int (global_step l)) in
    let latest := path_join (Args.output_dir args) "latest" in
    let branch := checkpoint_branch args accelerator l in
    let h := fun rank : nat => lift (ranked f rank) in
    let r := interleave h [0; 1; 1; 1]%nat [branch; branch] w in
    map (fun e => (fst e, event_call (snd e))) (snd r)
    = [ (0%nat, accelerator_save_state accelerator save_path);
        (1%nat, accelerator_save_state accelerator save_path);
        (1%nat, is_main_process accelerator);
        (1%nat, safe_blob_write latest save_path) ] /\
    existsb (fun e => failed (snd e)) (snd r) = false /\
    pointer_after latest (snd r) = Some save_path /\
    side_record_written save_path (snd r) = false /\
    ~ never_half_written latest (snd r) /\
    snd (interleave h [0%nat] (fst (fst r)) (snd (fst r)))
    = [(0%nat, Event (is_main_process accelerator) true)].
Proof.
  intros W f args accelerator l w save_path latest branch h r.
  assert (Hbranch :
    branch =
    Vis (accelerator_save_state accelerator save_path) (fun _ =>
    Vis (is_main_process accelerator) (fun is_main =>
      bind (if is_main : bool then
              bind (if Args.use_ema args then
                      match ema_model l with
                      | Some e => Ret (Some (state_dict e))
                      | None => Raise (UnboundLocalError "ema_model")
                      end
                    else Ret None)
                   (fun ema =>
                      Vis (torch_save_other_state
                             (mkOtherState (scaling_factor l) (bias_factor l)
                                (global_step l) ema)
                             (path_join save_path "other_state.pth")) Ret)
            else Ret tt)
           (fun _ =>
              Vis (safe_blob_write latest save_path) (fun _ =>
              Vis (logger_info (PFormat [PStr "Saved state to "; PStr save_path])) Ret)))))
    by reflexivity.
  clearbody branch. subst branch r h.
  repeat (cbn [interleave step_rank nth_error]; rewrite lift_eq;
          cbn [ranked replace_nth fst snd bind app Nat.eqb]).
  match goal with |- map _ ?t = _ /\ _ => set (tr := t) end.
  assert (H1 : pointer_after latest tr = Some save_path).
  { subst tr. unfold pointer_after. cbn [fold_left snd].
    rewrite String.eqb_refl. reflexivity. }
  assert (H2 : side_record_written save_path tr = false) by reflexivity.
  split; [reflexivity|]. split; [reflexivity|].
  split; [exact H1|]. split; [exact H2|]. split.
  - intro H. specialize (H 4%nat save_path H1).
    change (firstn 4 tr) with tr in H. rewrite H2 in H. discriminate H.
  - reflexivity.
Qed.

(** The whole of such a run, for the default arguments at step 5000: rank 1
    writes the pointer (fourth call) before rank 0 writes the side record
    (sixth call). *)
Example two_ranks_checkpoint_5000 :
  map (fun e => (fst e, event_call (snd e)))
    (snd (interleave (fun rank => lift (ranked scripted rank))
            [0; 1; 1; 1; 0; 0; 0; 0; 1]%nat
            [checkpoint_branch default_args (Obj 3) (mkLocals 5000 0%R (Some 2%R) (Some 0%R) None);
             checkpoint_branch default_args (Obj 3) (mkLocals 5000 0%R (Some 2%R) (Some 0%R) None)]
            resumed_world))
  = [ (0%nat, accelerator_save_state (Obj 3) "results/checkpoint-5000");
      (1%nat, accelerator_save_state (Obj 3) "results/checkpoint-5000");
      (1%nat, is_main_process (Obj 3));
      (1%nat, safe_blob_write "results/latest" "results/checkpoint-5000");
      (0%nat, is_main_process (Obj 3));
      (0%nat, torch_save_other_state (mkOtherState (Some 2%R) (Some 0%R) 5000 None)
                "results/checkpoint-5000/other_state.pth");
      (0%nat, safe_blob_write "results/latest" "results/checkpoint-5000");
      (0%nat, logger_info (PFormat [PStr "Saved state to ";
                                    PStr "results/checkpoint-5000"]));
      (1%nat, logger_info (PFormat [PStr "Saved state to ";
                                    PStr "results/checkpoint-5000"])) ].
Proof. reflexivity. Qed.

(** ** Programs that cannot return *)

Lemma never_returns_bind_l {A B : Type} (p : prog A) (f : A -> prog B) :
  never_returns p -> never_returns (bind p f).
Proof. induction p as [a|e|c k IH]; simpl; auto; contradiction. Qed.

Lemma never_returns_bind_r {A B : Type} (p : prog A) (f : A -> prog B) :
  (forall a, never_returns (f a)) -> never_returns (bind p f).
Proof. intro Hf. induction p as [a|e|c k IH]; simpl; auto. Qed.

Lemma calls_satisfy_bind {A B : Type} (P : call -> Prop) (p : prog A) (f : A -> prog B) :
  calls_satisfy P p -> (forall a, calls_satisfy P (f a)) -> calls_satisfy P (bind p f).
Proof.
  intros Hp Hf. induction p as [a|e|c k IH]; simpl; auto.
  destruct Hp as [Hc Hk]. split; auto.
Qed.

Lemma calls_satisfy_bind_stuck {A B : Type} (P : call -> Prop) (p : prog A)
    (f : A -> prog B) :
  calls_satisfy P p -> never_returns p -> calls_satisfy P (bind p f).
Proof.
  induction p as [a|e|c k IH]; simpl; auto.
  - contradiction.
  - intros [Hc Hk] Hn. split; auto.
Qed.

Lemma calls_satisfy_global {A : Type} (P : call -> Prop) (name : string) (p : prog A) :
  calls_satisfy P p -> calls_satisfy P (global name p).
Proof. unfold global. destruct (bound name); simpl; auto. Qed.

Lemma calls_satisfy_for_each {X S : Type} (P : call -> Prop) (xs : list X)
    (body : X -> S -> prog S) :
  (forall x s, calls_satisfy P (body x s)) ->
  forall s, calls_satisfy P (for_each xs body s).
Proof.
  intro Hbody. induction xs as [|x xs IH]; intro s; simpl; auto.
  apply calls_satisfy_bind; auto.
Qed.

Lemma run_never_returns {W A : Type} (h : handler W) (p : prog A) :
  never_returns p -> forall w a, fst (fst (run h p w)) <> inl a.
Proof.
  induction p as [a|e|c k IH]; simpl; intros Hn w a'.
  - contradiction.
  - discriminate.
  - destruct (h c w) as [[r|e] w']; [|simpl; discriminate].
    specialize (IH r (Hn r) w' a').
    destruct (run h (k r) w') as [[res w''] tr]. exact IH.
Qed.

Lemma run_calls_satisfy {W A : Type} (P : call -> Prop) (h : handler W) (p : prog A) :
  calls_satisfy P p ->
  forall w ev, In ev (snd (run h p w)) -> P (event_call ev).
Proof.
  induction p as [a|e|c k IH]; simpl; intros Hp w ev; try contradiction.
  destruct Hp as [Hc Hk].
  destruct (h c w) as [[r|e] w'].
  - specialize (IH r (Hk r) w' ev).
    destruct (run h (k r) w') as [[res w''] tr]. simpl in *.
    intros [<-|Hin]; auto.
  - simpl. intros [<-|[]]. exact Hc.
Qed.

(** ** After the loss *)

Ltac calls_tac :=
  repeat first
    [ exact I
    | apply calls_satisfy_global
    | apply calls_satisfy_for_each; intros
    | apply calls_satisfy_bind; [|intros]
    | progress cbn [ext calls_satisfy]
    | split; [exact I|intros] ].

Section AfterLoss.

Context {torch : Torch}.

Lemma normalize_in_forward_pass (x : tensor) (l : Locals) :
  calls_satisfy in_forward_pass (normalize x l).
Proof.
  unfold normalize. apply calls_satisfy_bind.
  - destruct (scaling_factor l); calls_tac.
    all: unfold float_div; match goal with |- context [?n =? 0] => destruct (n =? 0) end;
      calls_tac.
  - intro l'. destruct (bias_factor l'), (scaling_factor l'); exact I.
Qed.

Lemma reverse_diffusion_in_forward_pass (args : Args.Namespace) (model scheduler : obj)
    (clean_images label : tensor) :
  calls_satisfy in_forward_pass (reverse_diffusion args model scheduler clean_images label).
Proof. unfold reverse_diffusion. calls_tac. Qed.

Lemma rollout_loss_in_forward_pass (args : Args.Namespace) (model scheduler : obj)
    (clean_images label : tensor) :
  calls_satisfy in_forward_pass (rollout_loss args model scheduler clean_images label).
Proof.
  unfold rollout_loss.
  destruct (shape clean_images) as [|? [|? [|? [|? [|? ?]]]]]; try exact I.
  calls_tac.
  match goal with b : resp (is_Transformer _) |- _ => cbn in b; destruct b end;
    [|exact I].
  apply calls_satisfy_bind; [apply reverse_diffusion_in_forward_pass|].
  intro image. unfold exit. calls_tac.
Qed.

(** Both branches of the rollout end the step: [exit()] after the loss is
    printed, [NotImplementedError] for a model that is no [Transformer]. *)
Lemma rollout_loss_never_returns (args : Args.Namespace) (model scheduler : obj)
    (clean_images label : tensor) :
  never_returns (rollout_loss args model scheduler clean_images label).
Proof.
  unfold rollout_loss.
  destruct (shape clean_images) as [|? [|? [|? [|? [|? ?]]]]]; try exact I.
  rewrite (global_bound "Transformer") by reflexivity.
  cbn [bind ext never_returns]. intros [|]; [|exact I].
  apply never_returns_bind_r. intro image.
  rewrite (global_bound "F") by reflexivity. cbn [bind].
  rewrite (global_bound "print") by reflexivity. cbn [bind ext never_returns]. intros _.
  rewrite (global_bound "exit") by reflexivity. exact I.
Qed.

End AfterLoss.

(** C2, as the code has it: a training step never reaches the backward
    pass.  Whatever the arguments, the batch and the outside world,
    [train_step] does not return to the loop and none of its calls is
    [accelerator.backward], the gradient-sync test, a telemetry sink or a
    checkpoint write: the rollout branch ends in [exit()] right after the
    loss is printed, the other branch in [NotImplementedError]. *)
Theorem train_step_never_reaches_backward :
  forall (T : Torch) (W : Type) (h : handler W) (args : Args.Namespace)
         (vae model scheduler accelerator : obj) (total_batch_size epoch : Z)
         (batch : tensor * tensor) (l : Locals) (w : W),
    let '(res, _, tr) :=
      run h (train_step args vae model scheduler accelerator total_batch_size epoch batch l) w in
    (forall l', res <> inl l') /\
    (forall ev, In ev tr -> in_forward_pass (event_call ev)).
Proof.
  intros T W h args vae model scheduler accelerator total_batch_size epoch [x label] l w.
  set (p := train_step args vae model scheduler accelerator total_batch_size epoch (x, label) l).
  assert (Hn : never_returns p).
  { subst p. unfold train_step. cbn [bind ext never_returns]. intros d latent.
    apply never_returns_bind_r. intros [y l'].
    apply never_returns_bind_l, rollout_loss_never_returns. }
  assert (Hc : calls_satisfy in_forward_pass p).
  { subst p. unfold train_step. cbn [bind ext calls_satisfy].
    split; [exact I|]. intro d. split; [exact I|]. intro latent.
    apply calls_satisfy_bind; [apply normalize_in_forward_pass|]. intros [y l'].
    apply calls_satisfy_bind_stuck;
      [apply rollout_loss_in_forward_pass|apply rollout_loss_never_returns]. }
  pose proof (run_never_returns h p Hn w) as H1.
  pose proof (run_calls_satisfy in_forward_pass h p Hc w) as H2.
  destruct (run h p w) as [[res w'] tr]. simpl in H1, H2. split; assumption.
Qed.

(** On a Transformer and a latent of shape [1, 1, 1, 3] the step ends with
    [SystemExit]; its last call prints the loss. *)
Example train_step_exits :
  let r :=
    run (lift scripted)
        (@train_step real_torch default_args (Obj 0) (Obj 1) (Obj 2) (Obj 3) 32 0
           (mkTensor [1; 3; 2; 2]%nat [], mkTensor [1]%nat [7%R])
           (mkLocals 0 0%R None None None))
        resumed_world in
  fst (fst r) = inr SystemExit /\
  map failed (snd r) = repeat false 19 /\
  map (fun ev => match event_call ev with print _ => true | _ => false end)
      (skipn 18 (snd r)) = [true].
Proof. cbv zeta. repeat split; reflexivity. Qed.

(** C9, as the code has it: the logging branch never emits anything.  It
    has no handler around it, and it reads the name [gnorm], which nothing
    binds: whatever the state and the outside world, [log_metrics] raises
    before its first call ([ZeroDivisionError] when [log_every] or
    [gradient_accumulation_steps] is 0, else [NameError: gnorm]). *)
Theorem logging_branch_raises :
  forall (W : Type) (h : handler W) (args : Args.Namespace)
         (accelerator : obj) (total_batch_size epoch : Z) (l : Locals) (w : W),
    bound "gnorm" = false /\
    run h (log_metrics args accelerator total_batch_size epoch l) w =
    (inr (if (Args.log_every args =? 0) || (Args.gradient_accumulation_steps args =? 0)
          then ZeroDivisionError else NameError "gnorm"),
     w, []).
Proof.
  intros W h args accelerator total_batch_size epoch l w.
  split; [reflexivity|].
  unfold log_metrics, float_div.
  destruct (Args.log_every args =? 0); [reflexivity|].
  destruct (Args.gradient_accumulation_steps args =? 0); reflexivity.
Qed.

(** A sync step that falls on the logging cadence (step 100 with
    [log_every = 100]) leaves the loop with that [NameError]. *)
Example sync_step_at_log_cadence :
  run (lift scripted)
      (after_sync default_args (Obj 1) (Obj 3) 32 0 (mkLocals 99 0%R (Some 1%R) (Some 0%R) None))
      resumed_world
  = (inr (NameError "gnorm"), resumed_world, []).
Proof. reflexivity. Qed.

(** ** A resumed run *)

Lemma std_latent_3 : std_R (flatten latent_3) = 1%R.
Proof.
  unfold std_R, mean_R, sum_list, flatten, latent_3. simpl.
  replace (_ / _)%R with 1%R by (field; lra).
  apply sqrt_1.
Qed.

Lemma mean_latent_3 : mean_R (flatten latent_3) = 0%R.
Proof. unfold mean_R, sum_list, flatten, latent_3. simpl. field. Qed.

Example find_checkpoint_latest :
  run (lift scripted) (find_checkpoint default_args) resumed_world =
  (inl (Some "results/checkpoint-500"), resumed_world,
   [Event (os_path_exists "results/latest") true;
    Event (read_file "results/latest") "results/checkpoint-500
"]).
Proof. reflexivity. Qed.

(** C1, as the code has it: the restored transform and step are dropped.
    On the checkpoint [(scaling_factor = 2.0, bias_factor = -1.5, steps =
    500)], found through the [latest] pointer: lines 199-203 bind the pair
    [(2.0, -1.5)] to the locals; lines 246-250 then assign [global_step = 0]
    and [None] to both factors, and ["steps"] is never read; so the first
    batch of the resumed run goes through the all-reduce again and the pair
    in use is the one computed from that batch, here [(1, 0)].  The whole of
    [main] after line 107, run on that checkpoint, loads the side record and
    later makes those two all-reduce calls. *)
Theorem resumed_run_recomputes_transform :
  let unset := mkLocals 0 0%R None None None in
  let restored := mkLocals 0 0%R (Some 2%R) (Some (-3 / 2)%R) None in
  let whole :=
    run (lift scripted)
        (@main_body real_torch default_args "results/logs" "cpu" (Obj 0) 32 4 false)
        resumed_world in
  fst (fst (run (lift scripted)
              (resume default_args (Obj 1) "cpu" float32 (Some "results/checkpoint-500") unset)
              resumed_world)) = inl restored /\
  init_loop_locals restored = unset /\
  global_step (init_loop_locals restored) <> os_steps checkpoint_500 /\
  (exists y s b tr,
     run (lift scripted) (@normalize real_torch latent_3 (init_loop_locals restored))
         resumed_world
     = (inl (y, mkLocals 0 0%R (Some s) (Some b) None), resumed_world, tr) /\
     calls_where is_all_reduce tr =
       [dist_all_reduce_SUM (1 / std_R (flatten latent_3))%R;
        dist_all_reduce_SUM (- mean_R (flatten latent_3))%R] /\
     s = 1%R /\ b = 0%R /\ (s, b) <> (2%R, (-3 / 2)%R)) /\
  fst (fst whole) = inr SystemExit /\
  calls_where is_load_other_state (snd whole) =
    [torch_load_other_state "results/checkpoint-500/other_state.pth"] /\
  calls_where is_all_reduce (snd whole) =
    [dist_all_reduce_SUM (1 / std_R (flatten latent_3))%R;
     dist_all_reduce_SUM (- mean_R (flatten latent_3))%R].
Proof.
  cbv zeta. split; [reflexivity|]. split; [reflexivity|]. split; [discriminate|]. split.
  - do 4 eexists. split; [reflexivity|]. split; [reflexivity|].
    cbn [torch_std torch_mean real_torch answer next_world].
    rewrite std_latent_3, mean_latent_3.
    split; [|split]; [field | field |].
    intro H. injection H as H1 _. lra.
  - repeat split; reflexivity.
Qed.

(** ** The decay schedule *)

Lemma clamp_le_hi (lo hi x : R) : (lo <= hi)%R -> (clamp lo hi x <= hi)%R.
Proof.
  intro H. unfold clamp. apply Rmax_lub; [exact H|apply Rmin_r].
Qed.

Lemma clamp_monotone (lo hi x y : R) : (x <= y)%R -> (clamp lo hi x <= clamp lo hi y)%R.
Proof.
  intro H. unfold clamp.
  apply Rle_max_compat_l, Rle_min_compat_r, H.
Qed.

Lemma clamp_point (d x : R) : clamp d d x = d.
Proof.
  unfold clamp. apply Rmax_left, Rmin_r.
Qed.

Lemma warmup_raw_monotone (inv_gamma power : R) (s1 s2 : Z) :
  (0 < inv_gamma)%R -> (0 <= power)%R -> 0 <= s1 -> s1 <= s2 ->
  (warmup_raw inv_gamma power s1 <= warmup_raw inv_gamma power s2)%R.
Proof.
  intros Hg Hp H1 H12. unfold warmup_raw.
  assert (Hs1 : (0 <= IZR s1)%R) by (apply IZR_le in H1; exact H1).
  assert (Hs12 : (IZR s1 <= IZR s2)%R) by (apply IZR_le; exact H12).
  assert (Ha : (0 < 1 + IZR s1 / inv_gamma)%R).
  { apply Rplus_lt_le_0_compat; [lra|]. apply Rmult_le_pos; [exact Hs1|].
    left. apply Rinv_0_lt_compat, Hg. }
  assert (Hab : (1 + IZR s1 / inv_gamma <= 1 + IZR s2 / inv_gamma)%R).
  { apply Rplus_le_compat_l. unfold Rdiv. apply Rmult_le_compat_r; [|exact Hs12].
    left. apply Rinv_0_lt_compat, Hg. }
  rewrite !Rpower_Ropp.
  assert (Hpa : (0 < Rpower (1 + IZR s1 / inv_gamma) power)%R)
    by (unfold Rpower; apply exp_pos).
  assert (Hle : (Rpower (1 + IZR s1 / inv_gamma) power
                 <= Rpower (1 + IZR s2 / inv_gamma) power)%R)
    by (apply Rle_Rpower_l; [exact Hp|split; assumption]).
  apply Rplus_le_compat_l, Ropp_le_contravar, Rinv_le_contravar; assumption.
Qed.

(** The schedule of the specification, for any configuration with warmup:
    non-decreasing in the step count and below [max_decay]. *)
Lemma get_decay_monotone (e : EMAModel) (s1 s2 : Z) :
  use_ema_warmup e = true ->
  (0 < inv_gamma e)%R -> (0 <= power e)%R -> (min_decay e <= decay e)%R ->
  0 <= s1 -> s1 < s2 ->
  (get_decay e s1 <= get_decay e s2 <= decay e)%R.
Proof.
  intros Hw Hg Hp Hmin H1 H12. unfold get_decay. rewrite Hw. split.
  - apply clamp_monotone.
    apply (warmup_raw_monotone (inv_gamma e) (power e) s1 s2); auto; lia.
  - apply clamp_le_hi, Hmin.
Qed.

(** The tracker [main] builds has [min_decay = max_decay]: its schedule is
    the constant [max_decay]. *)
Lemma orchestrator_decay_constant (parameters : list tensor) (max_decay g p : R)
    (warmup : bool) (step : Z) :
  get_decay (EMAModel_init parameters max_decay max_decay warmup g p) step = max_decay.
Proof. unfold get_decay, EMAModel_init. cbn. apply clamp_point. Qed.

(** C6, amended: with warmup the decay schedule is non-decreasing in the
    step count and capped by [max_decay]; for the tracker the orchestrator
    builds ([use_ema_warmup = True], [min_decay = max_decay], [inv_gamma],
    [power] from the arguments) the decay is [max_decay] at every step
    count, the first included. *)
Theorem orchestrator_decay_schedule :
  forall (W : Type) (h : handler W) (args : Args.Namespace) (model : obj)
         (w : W) (e : EMAModel) (s1 s2 : Z),
    fst (fst (run h (create_ema args model) w)) = inl (Some e) ->
    s1 < s2 ->
    use_ema_warmup e = true /\
    min_decay e = decay e /\
    decay e = Args.ema_max_decay args /\
    (get_decay e s1 <= get_decay e s2 <= Args.ema_max_decay args)%R /\
    get_decay e s1 = Args.ema_max_decay args /\
    get_decay e s2 = Args.ema_max_decay args /\
    get_decay e 0 = Args.ema_max_decay args.
Proof.
  intros W h args model w e s1 s2 Hrun Hlt.
  unfold create_ema in Hrun.
  destruct (Args.use_ema args); [|discriminate Hrun].
  cbn [bind ext run] in Hrun.
  destruct (h (model_parameters model) w) as [[parameters|err] w']; [|discriminate Hrun].
  rewrite (global_bound "EMAModel") in Hrun by reflexivity.
  cbn in Hrun. injection Hrun as <-.
  rewrite !orchestrator_decay_constant. cbn.
  repeat split; auto; lra.
Qed.

Lemma orchestrator_decay_schedule_witness :
  use_ema_warmup (EMAModel_init [] (9999 / 10000) (9999 / 10000) true 1 (3 / 4)) = true /\
  min_decay (EMAModel_init [] (9999 / 10000) (9999 / 10000) true 1 (3 / 4)) =
  decay (EMAModel_init [] (9999 / 10000) (9999 / 10000) true 1 (3 / 4)) /\
  decay (EMAModel_init [] (9999 / 10000) (9999 / 10000) true 1 (3 / 4)) =
  Args.ema_max_decay (args_with true) /\
  (get_decay (EMAModel_init [] (9999 / 10000) (9999 / 10000) true 1 (3 / 4)) 1
   <= get_decay (EMAModel_init [] (9999 / 10000) (9999 / 10000) true 1 (3 / 4)) 1000
   <= Args.ema_max_decay (args_with true))%R /\
  get_decay (EMAModel_init [] (9999 / 10000) (9999 / 10000) true 1 (3 / 4)) 1 =
  Args.ema_max_decay (args_with true) /\
  get_decay (EMAModel_init [] (9999 / 10000) (9999 / 10000) true 1 (3 / 4)) 1000 =
  Args.ema_max_decay (args_with true) /\
  get_decay (EMAModel_init [] (9999 / 10000) (9999 / 10000) true 1 (3 / 4)) 0 =
  Args.ema_max_decay (args_with true).
Proof.
  apply (orchestrator_decay_schedule World (lift scripted) (args_with true) (Obj 1)
           (mkWorld [] "" (mkOtherState None None 0 None) [] [] empty_tensor [])
           (EMAModel_init [] (9999 / 10000) (9999 / 10000) true 1 (3 / 4)) 1 1000).
  - reflexivity.
  - lia.
Defined.

(** C6 as stated fails: for the tracker [main] builds under the defaults of
    [parse_args] with [--use_ema], the decay at step 0 is already 0.9999, not
    near 0, and it is no higher a million steps later. *)
Lemma orchestrator_decay_does_not_rise :
  fst (fst (run (lift scripted) (@create_ema (args_with true) (Obj 1))
              (mkWorld [] "" (mkOtherState None None 0 None) [] [] empty_tensor [])))
  = inl (Some (EMAModel_init [] (9999 / 10000) (9999 / 10000) true 1 (3 / 4))) /\
  get_decay (EMAModel_init [] (9999 / 10000) (9999 / 10000) true 1 (3 / 4)) 0
  = (9999 / 10000)%R /\
  ~ (get_decay (EMAModel_init [] (9999 / 10000) (9999 / 10000) true 1 (3 / 4)) 0
     < get_decay (EMAModel_init [] (9999 / 10000) (9999 / 10000) true 1 (3 / 4)) 1000000)%R.
Proof.
  split; [reflexivity|].
  rewrite !orchestrator_decay_constant. split; [reflexivity|lra].
Qed.

(** ** The EMA tracker across a restart *)

Lemma resume_keeps_tracker {W : Type} (h : handler W) (args : Args.Namespace) (model : obj)
    (device : string) (dt : dtype) (checkpoint_path : option string) (l l' : Locals)
    (w w' : W) (tr : list event) :
  run h (resume args model device dt checkpoint_path l) w = (inl l', w', tr) ->
  ema_model l' = ema_model l.
Proof.
  unfold resume. destruct checkpoint_path as [path|].
  2:{ cbn. intro H. injection H as <- _ _. reflexivity. }
  rewrite run_bind.
  destruct (run h _ w) as [[[other|e] w1] tr1]; cbn [then_run]; [|discriminate].
  set (l1 := set_factors l (os_scaling_factor other) (os_bias_factor other)).
  rewrite run_bind.
  destruct (run h _ w1) as [[[u|e] w2] tr2]; cbn [then_run]; [|discriminate].
  assert (Hl1 : ema_model l1 = ema_model l) by reflexivity.
  destruct (Args.use_ema args), (os_ema other) as [ema|].
  1: rewrite run_bind;
     destruct (run h _ w2) as [[[parameters|e] w3] tr3]; cbn [then_run]; [|discriminate].
  1: rewrite run_bind;
     destruct (run h _ w3) as [[[u3|e] w4] tr4]; cbn [then_run]; [|discriminate].
  1: rewrite run_bind;
     destruct (run h _ w4) as [[[u4|e] w5] tr5]; cbn [then_run]; [|discriminate].
  1: cbn; intro H; injection H as <- _ _; exact Hl1.
  all: rewrite run_bind;
    destruct (run h _ w2) as [[[found|e] w3] tr3]; cbn [then_run]; [|discriminate].
  all: rewrite run_bind;
    destruct (run h _ w3) as [[[state|e] w4] tr4]; cbn [then_run]; [|discriminate].
  all: rewrite run_bind;
    destruct (run h _ w4) as [[[u4|e] w5] tr5]; cbn [then_run]; [|discriminate].
  all: rewrite run_bind;
    destruct (run h _ w5) as [[[u5|e] w6] tr6]; cbn [then_run]; [|discriminate].
  all: cbn; intro H; injection H as <- _ _; exact Hl1.
Qed.

Lemma tracked_500_decay (step : Z) : get_decay tracked_500 step = (9999 / 10000)%R.
Proof. unfold get_decay, tracked_500. cbn. apply clamp_point. Qed.

(** C5, as the code has it: the EMA state of the checkpoint is not put back
    into the tracker.  The side record holds [ema_model.state_dict()]
    (shadow 10, call counter 500).  The restarted process builds its tracker
    from the fresh model (shadow 0, counter 0); resuming copies the saved
    shadow values into the model and leaves the tracker as built;
    [load_state_dict] is never called.  One step later, on the same live
    parameters, the resumed tracker has shadow 0.001 and counter 1, the
    uninterrupted one shadow 10 and counter 501. *)
Theorem resumed_tracker_differs :
  let args := args_with true in
  exists fresh l w1 tr after_resume after_continue,
    run (lift scripted) (create_ema args (Obj 1)) restarted_world
    = (inl (Some fresh), restarted_world,
       [Event (model_parameters (Obj 1)) [mkTensor [1%nat] [0%R]]]) /\
    os_ema saved_500 = Some (state_dict tracked_500) /\
    run (lift scripted)
        (resume args (Obj 1) "cpu" float32 (Some "results/checkpoint-500")
           (mkLocals 0 0%R None None (Some fresh)))
        restarted_world
    = (inl l, w1, tr) /\
    w_parameters w1 = shadow_params tracked_500 /\
    ema_model l = Some fresh /\
    fresh <> load_state_dict fresh (state_dict tracked_500) /\
    fst (fst (run (lift scripted)
                (after_sync args (Obj 1) (Obj 3) 32 0 (init_loop_locals l)) w1))
    = inl after_resume /\
    fst (fst (run (lift scripted)
                (after_sync args (Obj 1) (Obj 3) 32 0
                   (mkLocals 500 0%R (Some 2%R) (Some (-3 / 2)%R) (Some tracked_500))) w1))
    = inl after_continue /\
    option_map optimization_step (ema_model after_resume) = Some 1 /\
    option_map optimization_step (ema_model after_continue) = Some 501 /\
    option_map shadow_params (ema_model after_resume)
    = Some [mkTensor [1%nat] [(1 / 1000)%R]] /\
    option_map shadow_params (ema_model after_continue)
    = Some [mkTensor [1%nat] [10%R]].
Proof.
  cbv zeta. do 6 eexists.
  split; [reflexivity|]. split; [reflexivity|]. split; [reflexivity|].
  split; [reflexivity|]. split; [reflexivity|].
  split; [intro H; apply (f_equal optimization_step) in H; discriminate H|].
  split; [reflexivity|]. split; [reflexivity|].
  split; [reflexivity|]. split; [reflexivity|].
  split.
  - cbn. rewrite orchestrator_decay_constant.
    do 4 f_equal. field.
  - cbn. rewrite tracked_500_decay.
    do 4 f_equal. field.
Qed.

(** ** [parse_args] *)

Lemma set_local_rank_same (a : Args.Namespace) : set_local_rank a (Args.local_rank a) = a.
Proof. destruct a; reflexivity. Qed.

(** X1: when [parse_args] returns, the arguments are the parsed ones with at
    most [local_rank] changed: a [LOCAL_RANK] of the environment other than
    -1 replaces [--local_rank]; without the variable, or when it is -1, the
    parsed value stays. *)
Theorem parse_args_local_rank :
  forall (int_of_str : string -> option Z) (parsed args : Args.Namespace)
         (LOCAL_RANK : option string),
    parse_args int_of_str parsed LOCAL_RANK = Ret args ->
    args = set_local_rank parsed (Args.local_rank args) /\
    Args.local_rank args =
      match LOCAL_RANK with
      | None => Args.local_rank parsed
      | Some s =>
          match int_of_str s with
          | Some r => if r =? -1 then Args.local_rank parsed else r
          | None => Args.local_rank parsed
          end
      end.
Proof.
  intros int_of_str parsed args env. unfold parse_args.
  destruct env as [s|]; [destruct (int_of_str s) as [r|]|]; cbn [bind]; try discriminate.
  - destruct (r =? -1) eqn:H1; cbn [negb andb].
    + destruct (Args.dataset_name parsed), (Args.train_data_dir parsed);
        intro H; inversion H; subst; split;
        try reflexivity; symmetry; apply set_local_rank_same.
    + destruct (r =? Args.local_rank parsed) eqn:H2; cbn [negb].
      * apply Z.eqb_eq in H2. subst r.
        destruct (Args.dataset_name parsed), (Args.train_data_dir parsed);
          intro H; inversion H; subst; split;
          try reflexivity; symmetry; apply set_local_rank_same.
      * cbn.
        destruct (Args.dataset_name parsed), (Args.train_data_dir parsed);
          intro H; inversion H; subst; split; reflexivity.
  - cbn.
    destruct (Args.dataset_name parsed), (Args.train_data_dir parsed);
      intro H; inversion H; subst; split;
      try reflexivity; symmetry; apply set_local_rank_same.
Qed.

Lemma parse_args_local_rank_witness :
  set_local_rank default_args 3 = set_local_rank default_args (Args.local_rank (set_local_rank default_args 3)) /\
  Args.local_rank (set_local_rank default_args 3) =
    match Some "3" with
    | None => Args.local_rank default_args
    | Some s =>
        match int_decimal s with
        | Some r => if r =? -1 then Args.local_rank default_args else r
        | None => Args.local_rank default_args
        end
    end.
Proof.
  apply (parse_args_local_rank int_decimal default_args (set_local_rank default_args 3)
           (Some "3")).
  reflexivity.
Defined.

(** X2: [parse_args] returns exactly when the rank of the environment can be
    read and a dataset name or a training directory is given; with neither it
    raises the [ValueError] of line 98, and an unreadable [LOCAL_RANK] raises
    before that test. *)
Theorem parse_args_requires_data :
  forall (int_of_str : string -> option Z) (parsed : Args.Namespace)
         (LOCAL_RANK : option string),
    let readable :=
      match LOCAL_RANK with Some s => int_of_str s <> None | None => True end in
    let has_data :=
      Args.dataset_name parsed <> None \/ Args.train_data_dir parsed <> None in
    ((exists args, parse_args int_of_str parsed LOCAL_RANK = Ret args) <->
     readable /\ has_data) /\
    (readable -> ~ has_data ->
     parse_args int_of_str parsed LOCAL_RANK =
     Raise (ValueError
              (PStr "You must specify either a dataset name from the hub or a train data directory."))) /\
    (forall s, LOCAL_RANK = Some s -> int_of_str s = None ->
     parse_args int_of_str parsed LOCAL_RANK =
     Raise (ValueError (PFormat [PStr "invalid literal for int(): "; PStr s]))).
Proof.
  intros int_of_str parsed env readable has_data. subst readable has_data.
  unfold parse_args.
  assert (Hsame : forall r,
            Args.dataset_name
              (if negb (r =? -1) && negb (r =? Args.local_rank parsed)
               then set_local_rank parsed r else parsed) = Args.dataset_name parsed /\
            Args.train_data_dir
              (if negb (r =? -1) && negb (r =? Args.local_rank parsed)
               then set_local_rank parsed r else parsed) = Args.train_data_dir parsed).
  { intro r. destruct (negb (r =? -1) && negb (r =? Args.local_rank parsed)); split; reflexivity. }
  destruct env as [s|]; [destruct (int_of_str s) as [r|] eqn:Hs|]; cbn [bind].
  - destruct (Hsame r) as [-> ->].
    destruct (Args.dataset_name parsed) as [d|], (Args.train_data_dir parsed) as [t|];
      (split; [split|split]);
      try (intros; eexists; reflexivity);
      try (intros _; split; [discriminate|]; first [left; discriminate|right; discriminate]);
      try (intros _ H; exfalso; apply H; first [left; discriminate|right; discriminate]);
      try (intros s' H; inversion H; subst; congruence);
      try (intros [args H]; discriminate H);
      try (intros [_ [H|H]]; exfalso; apply H; reflexivity);
      try reflexivity.
  - split; [split|split].
    + intros [args H]. discriminate H.
    + intros [H _]. exfalso. apply H. reflexivity.
    + intros H. exfalso. apply H. reflexivity.
    + intros s' H _. inversion H; subst. reflexivity.
  - destruct (Hsame (-1)) as [-> ->].
    destruct (Args.dataset_name parsed) as [d|], (Args.train_data_dir parsed) as [t|];
      (split; [split|split]);
      try (intros; eexists; reflexivity);
      try (intros _; split; [exact I|]; first [left; discriminate|right; discriminate]);
      try (intros _ H; exfalso; apply H; first [left; discriminate|right; discriminate]);
      try (intros s' H; discriminate H);
      try (intros [args H]; discriminate H);
      try (intros [_ [H|H]]; exfalso; apply H; reflexivity);
      try reflexivity.
Qed.

(** ** The pointer file, written and read back *)

Lemma lstrip_eq (s : string) :
  lstrip s = match space_prefix s with Some rest => lstrip rest | None => s end.
Proof.
  destruct s as [|a [|b [|c s3]]]; simpl; try reflexivity.
  - destruct (is_space a); reflexivity.
  - destruct (is_space a); [reflexivity|]. destruct (is_space2 a b); reflexivity.
  - destruct (is_space a); [reflexivity|]. destruct (is_space2 a b); [reflexivity|].
    destruct (is_space3 a b c); reflexivity.
Qed.

Lemma space_prefix_length (s rest : string) :
  space_prefix s = Some rest -> (String.length rest < String.length s)%nat.
Proof.
  destruct s as [|a [|b [|c s3]]]; simpl; try discriminate.
  - destruct (is_space a); [|discriminate]. intros [= <-]. simpl. lia.
  - destruct (is_space a); [intros [= <-]; simpl; lia|].
    destruct (is_space2 a b); [|discriminate]. intros [= <-]. simpl. lia.
  - destruct (is_space a); [intros [= <-]; simpl; lia|].
    destruct (is_space2 a b); [intros [= <-]; simpl; lia|].
    destruct (is_space3 a b c); [|discriminate]. intros [= <-]. simpl. lia.
Qed.

Lemma lstrip_length (s : string) : (String.length (lstrip s) <= String.length s)%nat.
Proof.
  remember (String.length s) as n eqn:Hn.
  assert (H : (String.length s <= n)%nat) by lia. clear Hn.
  revert s H. induction n as [|n IH]; intros s H.
  - destruct s; simpl in *; lia.
  - rewrite lstrip_eq. destruct (space_prefix s) as [rest|] eqn:E; [|lia].
    apply space_prefix_length in E.
    specialize (IH rest ltac:(lia)). lia.
Qed.

Lemma lstrip_fixed (s : string) : lstrip s = s -> space_prefix s = None.
Proof.
  intro H. destruct (space_prefix s) as [rest|] eqn:E; [|reflexivity].
  exfalso. rewrite lstrip_eq, E in H.
  apply space_prefix_length in E.
  pose proof (lstrip_length rest) as Hl. rewrite H in Hl. lia.
Qed.

Lemma is_plain_spec (c : ascii) :
  is_plain c = true -> (nat_of_ascii c < 128)%nat /\ is_space c = false.
Proof.
  unfold is_plain. intro H. apply andb_prop in H. destruct H as [H1 H2].
  apply Nat.ltb_lt in H1. apply negb_true_iff in H2. auto.
Qed.

Lemma is_space2_plain (a d : ascii) : is_plain d = true -> is_space2 a d = false.
Proof.
  intro H. apply is_plain_spec in H. destruct H as [H _]. unfold is_space2.
  destruct (Nat.eqb_spec (nat_of_ascii d) 133); [lia|].
  destruct (Nat.eqb_spec (nat_of_ascii d) 160); [lia|].
  apply andb_false_r.
Qed.

Lemma is_space3_plain_last (a b d : ascii) : is_plain d = true -> is_space3 a b d = false.
Proof.
  intro H. apply is_plain_spec in H. destruct H as [H _]. unfold is_space3.
  destruct (Nat.eqb_spec (nat_of_ascii d) 128); [lia|].
  destruct (Nat.eqb_spec (nat_of_ascii d) 168); [lia|].
  destruct (Nat.eqb_spec (nat_of_ascii d) 169); [lia|].
  destruct (Nat.eqb_spec (nat_of_ascii d) 175); [lia|].
  destruct (Nat.eqb_spec (nat_of_ascii d) 159); [lia|].
  destruct (Nat.leb_spec 128 (nat_of_ascii d)); [lia|].
  rewrite !andb_false_r. reflexivity.
Qed.

Lemma is_space3_plain_mid (a d c : ascii) : is_plain d = true -> is_space3 a d c = false.
Proof.
  intro H. apply is_plain_spec in H. destruct H as [H _]. unfold is_space3.
  destruct (Nat.eqb_spec (nat_of_ascii d) 154); [lia|].
  destruct (Nat.eqb_spec (nat_of_ascii d) 128); [lia|].
  destruct (Nat.eqb_spec (nat_of_ascii d) 129); [lia|].
  rewrite !andb_false_r. reflexivity.
Qed.

(** A string that does not begin with white space does not begin with it
    either when a string is appended that starts with an ASCII character. *)
Lemma space_prefix_app (s t : string) (d : ascii) :
  s <> "" -> space_prefix s = None -> is_plain d = true ->
  space_prefix (s ++ String d t) = None.
Proof.
  intros Hs Hnone Hd.
  destruct s as [|a [|b [|c s3]]]; [congruence| | |]; simpl in *.
  - destruct (is_space a); [discriminate|].
    rewrite (is_space2_plain a d Hd).
    destruct t; [reflexivity|]. rewrite (is_space3_plain_mid a d _ Hd). reflexivity.
  - destruct (is_space a); [discriminate|].
    destruct (is_space2 a b); [discriminate|].
    rewrite (is_space3_plain_last a b d Hd). reflexivity.
  - destruct (is_space a); [discriminate|].
    destruct (is_space2 a b); [discriminate|].
    destruct (is_space3 a b c); [discriminate|reflexivity].
Qed.

Lemma lstrip_app (s t : string) (d : ascii) :
  s <> "" -> lstrip s = s -> is_plain d = true ->
  lstrip (s ++ String d t) = s ++ String d t.
Proof.
  intros Hs H Hd. rewrite lstrip_eq.
  rewrite (space_prefix_app s t d Hs (lstrip_fixed s H) Hd). reflexivity.
Qed.

Lemma space_prefix_plain (d : ascii) (t : string) :
  is_plain d = true -> space_prefix (String d t) = None.
Proof.
  intro Hd. simpl. destruct (is_plain_spec d Hd) as [Hlt ->].
  assert (H2 : forall b, is_space2 d b = false).
  { intro b. unfold is_space2. destruct (Nat.eqb_spec (nat_of_ascii d) 194); [lia|reflexivity]. }
  assert (H3 : forall b c, is_space3 d b c = false).
  { intros b c. unfold is_space3.
    destruct (Nat.eqb_spec (nat_of_ascii d) 225); [lia|].
    destruct (Nat.eqb_spec (nat_of_ascii d) 226); [lia|].
    destruct (Nat.eqb_spec (nat_of_ascii d) 227); [lia|]. reflexivity. }
  destruct t as [|b [|c t]]; rewrite ?H2, ?H3; reflexivity.
Qed.

(** White space stripped from the left of a string that ends with an ASCII
    character other than white space leaves that character in place. *)
Lemma space_prefix_end (u rest : string) (d : ascii) :
  is_plain d = true ->
  space_prefix (u ++ String d "") = Some rest ->
  exists u', rest = u' ++ String d "" /\ (String.length u' < String.length u)%nat.
Proof.
  intros Hd.
  destruct u as [|a [|b [|c u3]]]; simpl.
  - rewrite (proj2 (is_plain_spec d Hd)). discriminate.
  - destruct (is_space a).
    + intros [= <-]. exists "". simpl. split; [reflexivity|lia].
    + rewrite (is_space2_plain a d Hd). discriminate.
  - destruct (is_space a).
    + intros [= <-]. exists (String b ""). simpl. split; [reflexivity|lia].
    + destruct (is_space2 a b).
      * intros [= <-]. exists "". simpl. split; [reflexivity|lia].
      * rewrite (is_space3_plain_last a b d Hd). discriminate.
  - destruct (is_space a).
    + intros [= <-]. exists (String b (String c u3)). simpl. split; [reflexivity|lia].
    + destruct (is_space2 a b).
      * intros [= <-]. exists (String c u3). simpl. split; [reflexivity|lia].
      * destruct (is_space3 a b c); [|discriminate].
        intros [= <-]. exists u3. simpl. split; [reflexivity|lia].
Qed.

Lemma all_space_end (u : string) (d : ascii) :
  is_plain d = true -> all_space (u ++ String d "") = false.
Proof.
  intro Hd. unfold all_space.
  remember (String.length u) as n eqn:Hn.
  assert (H : (String.length u <= n)%nat) by lia. clear Hn.
  revert u H. induction n as [|n IH]; intros u H; rewrite lstrip_eq.
  - destruct u; [|simpl in H; lia]. cbn [append].
    rewrite (space_prefix_plain d "" Hd). reflexivity.
  - destruct (space_prefix (u ++ String d "")) as [rest|] eqn:E.
    + destruct (space_prefix_end u rest d Hd E) as (u' & -> & Hlen).
      apply IH. lia.
    + destruct u; reflexivity.
Qed.

Lemma rstrip_end (u : string) (d : ascii) :
  is_plain d = true -> rstrip (u ++ String d "") = u ++ String d "".
Proof.
  intro Hd. induction u as [|a u IH].
  - pose proof (all_space_end "" d Hd) as H. cbn [append] in H.
    cbn [append rstrip]. rewrite H. reflexivity.
  - pose proof (all_space_end (String a u) d Hd) as H. cbn [append] in H.
    cbn [append rstrip]. rewrite H, IH. reflexivity.
Qed.

Lemma string_app_assoc (s t u : string) : (s ++ t) ++ u = s ++ (t ++ u).
Proof. induction s as [|c s IH]; simpl; [reflexivity|]. rewrite IH. reflexivity. Qed.

Lemma plain_last (t : string) :
  t <> "" -> plain t -> exists u d, t = u ++ String d "" /\ is_plain d = true.
Proof.
  unfold plain. induction t as [|c t IH]; intros Hne Hp; [congruence|].
  destruct t as [|c' t'].
  - exists "", c. split; [reflexivity|]. apply Hp. simpl. auto.
  - destruct IH as (u & d & Hu & Hd); [discriminate|intros x Hx; apply Hp; simpl; auto|].
    exists (String c u), d. simpl. rewrite <- Hu. auto.
Qed.

Lemma rstrip_plain_tail (s t : string) :
  t <> "" -> plain t -> rstrip (s ++ t) = s ++ t.
Proof.
  intros Hne Hp. destruct (plain_last t Hne Hp) as (u & d & -> & Hd).
  rewrite <- string_app_assoc. apply rstrip_end, Hd.
Qed.

Lemma string_of_uint_plain (d : Decimal.uint) : plain (NilEmpty.string_of_uint d).
Proof.
  unfold plain.
  induction d; simpl; intros c H; try contradiction;
    destruct H as [<-|H]; auto.
Qed.

Lemma str_of_int_plain (n : Z) : plain (str_of_int n) /\ str_of_int n <> "".
Proof.
  unfold str_of_int, NilZero.string_of_int, NilZero.string_of_uint.
  destruct (Z.to_int n) as [d|d]; destruct d; split;
    try discriminate;
    try (intros c H; simpl in H;
         repeat (destruct H as [<-|H]; [reflexivity|]);
         first [contradiction | apply (string_of_uint_plain d c H)]).
Qed.

Lemma save_path_stripped (args : Args.Namespace) (l : Locals) :
  lstrip (Args.output_dir args) = Args.output_dir args ->
  strip (save_path_of args l) = save_path_of args l.
Proof.
  intro Hout. unfold save_path_of, strip.
  set (digits := str_of_int (global_step l)).
  destruct (str_of_int_plain (global_step l)) as [Hp Hne]. fold digits in Hp, Hne.
  assert (Hname : plain ("checkpoint-" ++ digits)).
  { intros c H. simpl in H.
    repeat (destruct H as [<-|H]; [reflexivity|]). apply Hp, H. }
  assert (Hslash : plain ("/" ++ "checkpoint-" ++ digits)).
  { intros c H. simpl in H.
    repeat (destruct H as [<-|H]; [reflexivity|]). apply Hp, H. }
  assert (Hpre : String.prefix "/" ("checkpoint-" ++ digits) = false).
  { simpl. destruct (ascii_dec "/" "c"); [discriminate|reflexivity]. }
  unfold path_join. rewrite Hpre.
  destruct (Args.output_dir args) as [|c out] eqn:Eout.
  - cbn [String.eqb orb]. change ("" ++ "checkpoint-" ++ digits) with ("checkpoint-" ++ digits).
    change (lstrip ("checkpoint-" ++ digits)) with ("checkpoint-" ++ digits).
    apply (rstrip_plain_tail "" ("checkpoint-" ++ digits)); [discriminate|exact Hname].
  - destruct (String.eqb (String c out) "" || ends_with_slash (String c out)).
    + change (String c out ++ "checkpoint-" ++ digits)
        with (String c out ++ String "c" ("heckpoint-" ++ digits)).
      rewrite (lstrip_app (String c out) ("heckpoint-" ++ digits) "c")
        by (discriminate || exact Hout || reflexivity).
      apply (rstrip_plain_tail (String c out) ("checkpoint-" ++ digits));
        [discriminate|exact Hname].
    + change (String c out ++ "/" ++ "checkpoint-" ++ digits)
        with (String c out ++ String "/" ("checkpoint-" ++ digits)).
      rewrite (lstrip_app (String c out) ("checkpoint-" ++ digits) "/")
        by (discriminate || exact Hout || reflexivity).
      apply (rstrip_plain_tail (String c out) ("/" ++ "checkpoint-" ++ digits));
        [discriminate|exact Hslash].
Qed.

(** X3: the pointer round trip.  The only pointer write of the checkpointing
    branch puts the path of the step's checkpoint directory into
    [output_dir/latest]; a later run with the same [output_dir] and no
    [--checkpoint], finding that content in the file, resumes from exactly
    that directory, provided [output_dir] does not begin with white space
    (the reader strips what it reads). *)
Theorem latest_pointer_round_trip :
  forall (W : Type) (f : answers W) (writer reader : Args.Namespace) (l : Locals)
         (accelerator : obj) (w : W),
    Args.output_dir reader = Args.output_dir writer ->
    Args.checkpoint reader = None ->
    lstrip (Args.output_dir writer) = Args.output_dir writer ->
    fst (f (os_path_exists (path_join (Args.output_dir writer) "latest")) w) = true ->
    fst (f (read_file (path_join (Args.output_dir writer) "latest"))
           (snd (f (os_path_exists (path_join (Args.output_dir writer) "latest")) w)))
    = save_path_of writer l ->
    calls_satisfy
      (fun c => is_pointer_write c = true ->
                c = safe_blob_write (path_join (Args.output_dir writer) "latest")
                      (save_path_of writer l))
      (checkpoint_branch writer accelerator l) /\
    fst (fst (run (lift f) (find_checkpoint reader) w)) = inl (Some (save_path_of writer l)).
Proof.
  intros W f writer reader l accelerator w Hdir Hnone Hout Hex Hread. split.
  - unfold checkpoint_branch, save_checkpoint. fold (save_path_of writer l).
    repeat first
      [ exact I
      | rewrite global_bound by reflexivity
      | apply calls_satisfy_bind; [|intros]
      | progress cbn [ext calls_satisfy]
      | split; [intro Hp; first [discriminate Hp | reflexivity]|intros]
      | match goal with
        | |- calls_satisfy _ (if ?b then _ else _) => destruct b
        | |- calls_satisfy _ (match ?o with Some _ => _ | None => _ end) => destruct o
        end ].
  - unfold find_checkpoint. rewrite Hnone, Hdir.
    rewrite (global_bound "os") by reflexivity.
    cbn [bind ext run]. rewrite lift_eq.
    set (a1 := f (os_path_exists (path_join (Args.output_dir writer) "latest")) w) in *.
    change (fst a1 = true) in Hex.
    destruct (fst a1) eqn:E1; [|discriminate Hex].
    rewrite (global_bound "open") by reflexivity.
    cbn [bind ext run]. rewrite lift_eq. cbn [run fst].
    f_equal. f_equal. rewrite Hread. apply save_path_stripped, Hout.
Qed.

Lemma latest_pointer_round_trip_witness :
  calls_satisfy
    (fun c => is_pointer_write c = true ->
              c = safe_blob_write (path_join (Args.output_dir default_args) "latest")
                    (save_path_of default_args (mkLocals 500 0%R (Some 2%R) (Some 0%R) None)))
    (checkpoint_branch default_args (Obj 3) (mkLocals 500 0%R (Some 2%R) (Some 0%R) None)) /\
  fst (fst (run (lift scripted) (find_checkpoint default_args)
              (mkWorld ["results/latest"] "results/checkpoint-500"
                 (mkOtherState None None 0 None) [] [] empty_tensor [])))
  = inl (Some (save_path_of default_args (mkLocals 500 0%R (Some 2%R) (Some 0%R) None))).
Proof.
  apply (latest_pointer_round_trip World scripted default_args default_args
           (mkLocals 500 0%R (Some 2%R) (Some 0%R) None) (Obj 3)
           (mkWorld ["results/latest"] "results/checkpoint-500"
              (mkOtherState None None 0 None) [] [] empty_tensor []));
    reflexivity.
Defined.

(** With an [output_dir] that begins with a blank, or with a no-break space
    (U+00A0), the reader would end up with another path than the one
    written. *)
Example pointer_with_leading_blank :
  path_join " out" ("checkpoint-" ++ str_of_int 5) = " out/checkpoint-5" /\
  strip " out/checkpoint-5" = "out/checkpoint-5" /\
  strip (path_join (utf8 [194; 160] ++ "out") ("checkpoint-" ++ str_of_int 5))
  = "out/checkpoint-5".
Proof. repeat split; reflexivity. Qed.

Lemma append_inj_l (s t u : string) : s ++ t = s ++ u -> t = u.
Proof. induction s as [|c s IH]; simpl; intro H; [exact H|]. injection H as H. auto. Qed.

Lemma str_of_int_inj (a b : Z) : str_of_int a = str_of_int b -> a = b.
Proof.
  unfold str_of_int. intro H.
  assert (Hok : forall n, Z.to_int n <> Decimal.Pos Decimal.Nil /\
                          Z.to_int n <> Decimal.Neg Decimal.Nil).
  { intro n. destruct n as [|p|p]; simpl; split; try discriminate;
      intro E; injection E as E; exact (DecimalPos.Unsigned.to_uint_nonnil p E). }
  apply DecimalZ.to_int_inj.
  destruct (Hok a) as [Ha1 Ha2]. destruct (Hok b) as [Hb1 Hb2].
  pose proof (NilZero.isi (Z.to_int a) Ha1 Ha2) as Ia.
  pose proof (NilZero.isi (Z.to_int b) Hb1 Hb2) as Ib.
  rewrite H in Ia. rewrite Ia in Ib. injection Ib as Ib. exact Ib.
Qed.

(** X4: checkpoints of different steps never share a directory: the
    directory name determines the step count. *)
Theorem save_path_distinct :
  forall (args : Args.Namespace) (l1 l2 : Locals),
    global_step l1 <> global_step l2 ->
    save_path_of args l1 <> save_path_of args l2.
Proof.
  intros args l1 l2 Hne Heq. apply Hne. apply str_of_int_inj.
  unfold save_path_of, path_join in Heq.
  assert (Hpre : forall d, String.prefix "/" ("checkpoint-" ++ d) = false).
  { intro d. simpl. destruct (ascii_dec "/" "c"); [discriminate|reflexivity]. }
  rewrite !Hpre in Heq.
  destruct (String.eqb (Args.output_dir args) "" || ends_with_slash (Args.output_dir args)).
  - apply append_inj_l in Heq. apply (append_inj_l "checkpoint-") in Heq. exact Heq.
  - apply append_inj_l in Heq. apply (append_inj_l "/checkpoint-") in Heq. exact Heq.
Qed.

Lemma save_path_distinct_witness :
  save_path_of default_args (mkLocals 500 0%R None None None) <>
  save_path_of default_args (mkLocals 5000 0%R None None None).
Proof.
  apply (save_path_distinct default_args (mkLocals 500 0%R None None None)
           (mkLocals 5000 0%R None None None)).
  simpl. lia.
Defined.

(** ** Resuming *)

Lemma set_factors_same (l : Locals) : set_factors l (scaling_factor l) (bias_factor l) = l.
Proof. destruct l; reflexivity. Qed.

(** X5: whatever the outside world does, resuming changes no local of the
    loop but the two factors: the step counter, the running loss and the EMA
    tracker are the ones it was given; without a checkpoint it changes
    nothing and makes no call. *)
Theorem resume_changes_only_factors :
  forall (W : Type) (h : handler W) (args : Args.Namespace) (model : obj)
         (device : string) (dt : dtype) (checkpoint_path : option string)
         (l l' : Locals) (w w' : W) (tr : list event),
    run h (resume args model device dt checkpoint_path l) w = (inl l', w', tr) ->
    l' = set_factors l (scaling_factor l') (bias_factor l') /\
    (checkpoint_path = None -> l' = l /\ tr = []).
Proof.
  intros W h args model device dt checkpoint_path l l' w w' tr.
  unfold resume. destruct checkpoint_path as [path|].
  2:{ cbn. intro H. injection H as <- _ <-. split; [|auto].
      symmetry. apply set_factors_same. }
  intro H. split; [|discriminate].
  revert H. rewrite run_bind.
  destruct (run h _ w) as [[[other|e] w1] tr1]; cbn [then_run]; [|discriminate].
  set (l1 := set_factors l (os_scaling_factor other) (os_bias_factor other)).
  rewrite run_bind.
  destruct (run h _ w1) as [[[u|e] w2] tr2]; cbn [then_run]; [|discriminate].
  assert (Hl1 : l1 = set_factors l (scaling_factor l1) (bias_factor l1)) by reflexivity.
  destruct (Args.use_ema args), (os_ema other) as [ema|].
  1: rewrite run_bind;
     destruct (run h _ w2) as [[[parameters|e] w3] tr3]; cbn [then_run]; [|discriminate].
  1: rewrite run_bind;
     destruct (run h _ w3) as [[[u3|e] w4] tr4]; cbn [then_run]; [|discriminate].
  1: rewrite run_bind;
     destruct (run h _ w4) as [[[u4|e] w5] tr5]; cbn [then_run]; [|discriminate].
  1: cbn; intro H; injection H as <- _ _; exact Hl1.
  all: rewrite run_bind;
    destruct (run h _ w2) as [[[found|e] w3] tr3]; cbn [then_run]; [|discriminate].
  all: rewrite run_bind;
    destruct (run h _ w3) as [[[state|e] w4] tr4]; cbn [then_run]; [|discriminate].
  all: rewrite run_bind;
    destruct (run h _ w4) as [[[u4|e] w5] tr5]; cbn [then_run]; [|discriminate].
  all: rewrite run_bind;
    destruct (run h _ w5) as [[[u5|e] w6] tr6]; cbn [then_run]; [|discriminate].
  all: cbn; intro H; injection H as <- _ _; exact Hl1.
Qed.

Lemma resume_changes_only_factors_witness :
  mkLocals 0 0%R (Some 2%R) (Some (-3 / 2)%R) None =
  set_factors (mkLocals 0 0%R None None None)
    (scaling_factor (mkLocals 0 0%R (Some 2%R) (Some (-3 / 2)%R) None))
    (bias_factor (mkLocals 0 0%R (Some 2%R) (Some (-3 / 2)%R) None)) /\
  (Some "results/checkpoint-500" = None ->
   mkLocals 0 0%R (Some 2%R) (Some (-3 / 2)%R) None = mkLocals 0 0%R None None None /\
   snd (run (lift scripted)
          (resume default_args (Obj 1) "cpu" float32 (Some "results/checkpoint-500")
             (mkLocals 0 0%R None None None)) resumed_world) = []).
Proof.
  apply (resume_changes_only_factors World (lift scripted) default_args (Obj 1) "cpu" float32
           (Some "results/checkpoint-500") (mkLocals 0 0%R None None None)
           (mkLocals 0 0%R (Some 2%R) (Some (-3 / 2)%R) None) resumed_world resumed_world).
  reflexivity.
Defined.

(** X6: resuming without usable EMA state from a checkpoint directory that
    holds neither [model.safetensors] nor [pytorch_model] raises the
    [ValueError] of line 215, which names the directory; by then the side
    record has been read and printed, and the model has not been touched. *)
Theorem resume_without_model_file :
  forall (W : Type) (f : answers W) (args : Args.Namespace) (model : obj)
         (device : string) (dt : dtype) (path : string) (l : Locals) (w : W),
    (Args.use_ema args = false \/
     forall w0, os_ema (fst (f (torch_load_other_state (path_join path "other_state.pth")) w0))
                = None) ->
    (forall w0, fst (f (os_path_exists (path_join path "model.safetensors")) w0) = false) ->
    (forall w0, fst (f (os_path_exists (path_join path "pytorch_model")) w0) = false) ->
    let r := run (lift f) (resume args model device dt (Some path) l) w in
    fst (fst r) =
      inr (ValueError (PFormat [PStr "Could not find model checkpoint in "; PStr path;
                                PStr "."])) /\
    map event_call (snd r) =
      [ torch_load_other_state (path_join path "other_state.pth");
        print (PFormat
                 [PStr "Scaling factor: ";
                  p_opt_float (os_scaling_factor
                                 (fst (f (torch_load_other_state
                                            (path_join path "other_state.pth")) w)));
                  PStr ", Bias factor: ";
                  p_opt_float (os_bias_factor
                                 (fst (f (torch_load_other_state
                                            (path_join path "other_state.pth")) w)))]);
        os_path_exists (path_join path "model.safetensors");
        os_path_exists (path_join path "pytorch_model") ].
Proof.
  intros W f args model device dt path l w Hema Hs Hp r. subst r.
  unfold resume.
  rewrite (global_bound "torch") by reflexivity.
  cbn [bind ext run]. rewrite lift_eq.
  set (a1 := f (torch_load_other_state (path_join path "other_state.pth")) w).
  rewrite (global_bound "print") by reflexivity.
  cbn [bind ext run]. rewrite lift_eq.
  match goal with |- context [f (print ?m) (snd a1)] => set (a2 := f (print m) (snd a1)) end.
  assert (Hbranch : Args.use_ema args = false \/ os_ema (fst a1) = None).
  { destruct Hema as [H|H]; [left; exact H|right; apply H]. }
  cbn [set_factors scaling_factor bias_factor].
  destruct Hbranch as [Hb|Hb]; rewrite Hb; [|destruct (Args.use_ema args)].
  all: rewrite (global_bound "os") by reflexivity.
  all: cbn [bind ext run]; rewrite lift_eq, Hs.
  all: rewrite (global_bound "os") by reflexivity.
  all: cbn [bind ext run]; rewrite lift_eq, Hp.
  all: cbn; split; reflexivity.
Qed.

Lemma resume_without_model_file_witness :
  let r := run (lift (fixed resumed_world))
             (resume default_args (Obj 1) "cpu" float32 (Some "elsewhere")
                (mkLocals 0 0%R None None None)) tt in
  fst (fst r) =
    inr (ValueError (PFormat [PStr "Could not find model checkpoint in "; PStr "elsewhere";
                              PStr "."])) /\
  map event_call (snd r) =
    [ torch_load_other_state (path_join "elsewhere" "other_state.pth");
      print (PFormat
               [PStr "Scaling factor: ";
                p_opt_float (os_scaling_factor
                               (fst (fixed resumed_world
                                       (torch_load_other_state
                                          (path_join "elsewhere" "other_state.pth")) tt)));
                PStr ", Bias factor: ";
                p_opt_float (os_bias_factor
                               (fst (fixed resumed_world
                                       (torch_load_other_state
                                          (path_join "elsewhere" "other_state.pth")) tt)))]);
      os_path_exists (path_join "elsewhere" "model.safetensors");
      os_path_exists (path_join "elsewhere" "pytorch_model") ].
Proof.
  apply (resume_without_model_file unit (fixed resumed_world) default_args (Obj 1) "cpu"
           float32 "elsewhere" (mkLocals 0 0%R None None None) tt).
  - left. reflexivity.
  - intro w0. reflexivity.
  - intro w0. reflexivity.
Defined.

Lemma calls_where_cons (p : call -> bool) (ev : event) (tr : list event) :
  calls_where p (ev :: tr) =
  if p (event_call ev) then event_call ev :: calls_where p tr else calls_where p tr.
Proof. unfold calls_where. cbn [filter]. destruct (p (event_call ev)); reflexivity. Qed.

Lemma calls_where_app (p : call -> bool) (tr1 tr2 : list event) :
  calls_where p (tr1 ++ tr2) = (calls_where p tr1 ++ calls_where p tr2)%list.
Proof. unfold calls_where. rewrite filter_app, map_app. reflexivity. Qed.

Lemma calls_where_none (p : call -> bool) (tr : list event) :
  (forall ev, In ev tr -> p (event_call ev) = false) -> calls_where p tr = [].
Proof.
  induction tr as [|ev tr IH]; intro H; [reflexivity|].
  rewrite calls_where_cons, (H ev) by (simpl; auto).
  apply IH. intros ev' Hin. apply H. simpl. auto.
Qed.

Lemma copy_loop_run {W : Type} (f : answers W) (model : obj) (device : string) (dt : dtype)
    (items : list (nat * (tensor * tensor))) :
  forall w, exists w' tr,
    run (lift f)
        (for_each items
           (fun '(i, (_, ema_param)) _ => ext (set_param_data model i ema_param device dt))
           tt) w
    = (inl tt, w', tr) /\
    map event_call tr =
    map (fun it => set_param_data model (fst it) (snd (snd it)) device dt) items.
Proof.
  induction items as [|[i [p t]] items IH]; intro w.
  - exists w, []. split; reflexivity.
  - cbn [for_each]. rewrite run_bind. cbn [bind ext run]. rewrite lift_eq.
    set (a := f (set_param_data model i t device dt) w).
    cbn [then_run].
    destruct (IH (snd a)) as (w' & tr & Hrun & Htr).
    destruct (fst a).
    match type of Hrun with run _ ?q _ = _ =>
      match goal with |- context [run (lift f) ?p (snd a)] => change p with q end
    end.
    rewrite Hrun. do 2 eexists. split; [reflexivity|].
    cbn [app map event_call fst snd]. f_equal. exact Htr.
Qed.

Lemma combine_shadow (ps ts : list tensor) (start : nat) :
  map (fun it : nat * (tensor * tensor) => (fst it, snd (snd it)))
      (combine (seq start (List.length ps)) (combine ps ts))
  = combine (seq start (List.length ps)) ts.
Proof.
  revert ts start. induction ps as [|p ps IH]; intros ts start; [reflexivity|].
  destruct ts as [|t ts]; [reflexivity|].
  cbn [List.length seq combine map fst snd]. f_equal. apply IH.
Qed.

(** X7: with [--use_ema] and EMA state in the side record, resuming writes
    the saved shadow values into the model, position by position, and looks
    at no model file.  The copy stops at the shorter of the two sequences:
    it makes [min (number of parameters) (number of shadow values)] writes,
    and parameters beyond that keep their values. *)
Theorem resume_copies_shadow :
  forall (W : Type) (f : answers W) (args : Args.Namespace) (model : obj)
         (device : string) (dt : dtype) (path : string) (l : Locals) (w : W)
         (ema : ema_state),
    Args.use_ema args = true ->
    os_ema (fst (f (torch_load_other_state (path_join path "other_state.pth")) w))
    = Some ema ->
    let other := fst (f (torch_load_other_state (path_join path "other_state.pth")) w) in
    let r := run (lift f) (resume args model device dt (Some path) l) w in
    fst (fst r) = inl (set_factors l (os_scaling_factor other) (os_bias_factor other)) /\
    calls_where touches_model_files (snd r) = [] /\
    exists parameters,
      calls_where (fun c => match c with model_parameters _ => true | _ => false end) (snd r)
      = [model_parameters model] /\
      In (Event (model_parameters model) parameters) (snd r) /\
      calls_where is_set_param_data (snd r)
      = map (fun it => set_param_data model (fst it) (snd it) device dt)
            (combine (seq 0 (List.length parameters)) (sd_shadow_params ema)) /\
      List.length (calls_where is_set_param_data (snd r))
      = Nat.min (List.length parameters) (List.length (sd_shadow_params ema)).
Proof.
  intros W f args model device dt path l w ema Hema Hsd other r. subst r other.
  unfold resume.
  rewrite (global_bound "torch") by reflexivity.
  cbn [bind ext run]. rewrite lift_eq.
  set (a1 := f (torch_load_other_state (path_join path "other_state.pth")) w) in *.
  rewrite (global_bound "print") by reflexivity.
  cbn [bind ext run]. rewrite lift_eq.
  match goal with |- context [f (print ?m) (snd a1)] => set (a2 := f (print m) (snd a1)) end.
  rewrite Hema, Hsd.
  cbn [bind ext run]. rewrite lift_eq.
  set (a3 := f (model_parameters model) (snd a2)).
  rewrite run_bind.
  destruct (copy_loop_run f model device dt
              (combine (seq 0 (List.length (fst a3)))
                       (combine (fst a3) (sd_shadow_params ema))) (snd a3))
    as (w' & tr & Hrun & Htr).
  match type of Hrun with run _ ?q _ = _ =>
    match goal with |- context [run (lift f) ?p (snd a3)] => change p with q end
  end.
  rewrite Hrun. cbn [then_run].
  rewrite (global_bound "print") by reflexivity.
  cbn [bind ext run]. rewrite lift_eq. cbn [run fst snd app].
  assert (Hcalls : forall p : call -> bool,
            (forall i t, p (set_param_data model i t device dt) = true) ->
            calls_where p tr = map event_call tr).
  { intros p Hp. clear Hrun. revert Htr.
    generalize (combine (seq 0 (List.length (fst a3)))
                        (combine (fst a3) (sd_shadow_params ema))).
    induction tr as [|ev tr IH]; intros items Hitems; [reflexivity|].
    destruct items as [|it items]; [discriminate|].
    cbn [map] in Hitems. injection Hitems as Hev Hrest.
    rewrite calls_where_cons, Hev, Hp. cbn [map]. rewrite Hev. f_equal. eapply IH, Hrest. }
  assert (Hnone : forall p : call -> bool,
            (forall i t, p (set_param_data model i t device dt) = false) ->
            calls_where p tr = []).
  { intros p Hp. clear Hrun Hcalls. revert Htr.
    generalize (combine (seq 0 (List.length (fst a3)))
                        (combine (fst a3) (sd_shadow_params ema))).
    induction tr as [|ev tr IH]; intros items Hitems; [reflexivity|].
    destruct items as [|it items]; [discriminate|].
    cbn [map] in Hitems. injection Hitems as Hev Hrest.
    rewrite calls_where_cons, Hev, Hp. eapply IH, Hrest. }
  assert (Hexpected :
            map event_call tr =
            map (fun it => set_param_data model (fst it) (snd it) device dt)
                (combine (seq 0 (List.length (fst a3))) (sd_shadow_params ema))).
  { rewrite Htr, <- combine_shadow, map_map. reflexivity. }
  destruct (fst a2).
  split; [reflexivity|].
  rewrite !calls_where_cons, !calls_where_app, !calls_where_cons.
  cbn [event_call touches_model_files is_set_param_data].
  split.
  - rewrite Hnone by reflexivity. reflexivity.
  - exists (fst a3).
    rewrite (Hnone (fun c => match c with model_parameters _ => true | _ => false end))
      by reflexivity.
    rewrite (Hcalls is_set_param_data) by reflexivity.
    split; [reflexivity|]. split; [cbn; auto|]. split.
    + rewrite app_nil_r. exact Hexpected.
    + rewrite app_nil_r, Hexpected.
      rewrite length_map, length_combine, length_seq. reflexivity.
Qed.

Lemma resume_copies_shadow_witness :
  let r := run (lift scripted)
             (resume (args_with true) (Obj 1) "cpu" float32 (Some "ckpt")
                (mkLocals 0 0%R None None None)) wider_world in
  fst (fst r) =
    inl (set_factors (mkLocals 0 0%R None None None)
           (os_scaling_factor saved_500) (os_bias_factor saved_500)) /\
  calls_where touches_model_files (snd r) = [] /\
  exists parameters,
    calls_where (fun c => match c with model_parameters _ => true | _ => false end) (snd r)
    = [model_parameters (Obj 1)] /\
    In (Event (model_parameters (Obj 1)) parameters) (snd r) /\
    calls_where is_set_param_data (snd r)
    = map (fun it => set_param_data (Obj 1) (fst it) (snd it) "cpu" float32)
          (combine (seq 0 (List.length parameters)) (sd_shadow_params (state_dict tracked_500))) /\
    List.length (calls_where is_set_param_data (snd r))
    = Nat.min (List.length parameters)
              (List.length (sd_shadow_params (state_dict tracked_500))).
Proof.
  apply (resume_copies_shadow World scripted (args_with true) (Obj 1) "cpu" float32 "ckpt"
           (mkLocals 0 0%R None None None) wider_world (state_dict tracked_500));
    reflexivity.
Defined.

(** Two parameters, one shadow value: one write, at position 0. *)
Example resume_copies_one_of_two :
  calls_where is_set_param_data
    (snd (run (lift scripted)
            (resume (args_with true) (Obj 1) "cpu" float32 (Some "ckpt")
               (mkLocals 0 0%R None None None)) wider_world))
  = [set_param_data (Obj 1) 0 (mkTensor [1%nat] [10%R]) "cpu" float32].
Proof. reflexivity. Qed.

(** ** More on the normalisation and the rollout *)

Lemma normalize_returns_set_witness :
  exists s b,
    scaling_factor (mkLocals 0 0%R (Some (1 / std_R (flatten latent_3) / 1)%R)
                      (Some (- mean_R (flatten latent_3) / 1)%R) None) = Some s /\
    bias_factor (mkLocals 0 0%R (Some (1 / std_R (flatten latent_3) / 1)%R)
                   (Some (- mean_R (flatten latent_3) / 1)%R) None) = Some b /\
    tensor_mul_scalar
      (tensor_add_scalar latent_3 (- mean_R (flatten latent_3) / 1)%R)
      (1 / std_R (flatten latent_3) / 1)%R
    = tensor_mul_scalar (tensor_add_scalar latent_3 b) s.
Proof.
  apply (@normalize_returns_set real_torch World (lift scripted)
           (mkLocals 0 0%R None None None)
           (mkLocals 0 0%R (Some (1 / std_R (flatten latent_3) / 1)%R)
              (Some (- mean_R (flatten latent_3) / 1)%R) None)
           latent_3
           (tensor_mul_scalar
              (tensor_add_scalar latent_3 (- mean_R (flatten latent_3) / 1)%R)
              (1 / std_R (flatten latent_3) / 1)%R)
           resumed_world resumed_world
           (snd (run (lift scripted)
                   (@normalize real_torch latent_3 (mkLocals 0 0%R None None None))
                   resumed_world))).
  reflexivity.
Defined.

Lemma reverse_diffusion_run {W : Type} (f : answers W) (args : Args.Namespace)
    (model scheduler : obj) (clean_images label : tensor) (w : W) :
  exists noise condition timesteps steps final w',
    denoise_trace model scheduler condition timesteps noise steps final /\
    run (lift f) (reverse_diffusion args model scheduler clean_images label) w
    = (inl final, w',
       Event (torch_randn_like clean_images) noise
       :: Event (forward_parallel model clean_images label) condition
       :: Event (scheduler_set_timesteps scheduler (Args.ddpm_num_inference_steps args)) tt
       :: Event (scheduler_timesteps scheduler) timesteps
       :: steps).
Proof.
  unfold reverse_diffusion.
  rewrite (global_bound "torch") by reflexivity.
  cbn [bind ext run].
  rewrite lift_eq.
  set (a1 := f (torch_randn_like clean_images) w).
  rewrite lift_eq.
  set (a2 := f (forward_parallel model clean_images label) (snd a1)).
  rewrite lift_eq.
  set (a3 := f (scheduler_set_timesteps scheduler (Args.ddpm_num_inference_steps args)) (snd a2)).
  rewrite lift_eq.
  set (a4 := f (scheduler_timesteps scheduler) (snd a3)).
  destruct (denoise_loop_run f model scheduler (fst a2) (fst a4) (fst a1) (snd a4))
    as (final & w' & steps & Hrun & Htr).
  match type of Hrun with run _ ?q _ = _ =>
    match goal with |- context [run (lift f) ?p (snd a4)] => change p with q end
  end.
  rewrite Hrun.
  exists (fst a1), (fst a2), (fst a4), steps, final, w'.
  destruct (fst a3). split; [exact Htr|reflexivity].
Qed.

(** X9: how the rollout block ends in a world whose calls return.  A latent
    that is not 4-dimensional raises [ValueError] at the unpacking of line
    271, before any call; a model that is no [Transformer] raises
    [NotImplementedError] after the type test alone, without noise, predictor
    or scheduler call; otherwise the rollout runs and the block ends in
    [SystemExit]. *)
Theorem rollout_loss_outcome :
  forall (T : Torch) (W : Type) (f : answers W) (args : Args.Namespace)
         (model scheduler : obj) (clean_images label : tensor) (w : W),
    let r := run (lift f) (rollout_loss args model scheduler clean_images label) w in
    match shape clean_images with
    | [_; _; _; _] =>
        if fst (f (is_Transformer model) w) : bool
        then fst (fst r) = inr SystemExit
        else fst (fst r) = inr NotImplementedError /\
             map event_call (snd r) = [is_Transformer model]
    | _ => (exists msg, fst (fst r) = inr (ValueError msg)) /\ snd r = []
    end.
Proof.
  intros T W f args model scheduler clean_images label w r. subst r.
  unfold rollout_loss.
  destruct (shape clean_images) as [|? [|? [|? [|? [|? ?]]]]];
    try (split; [eexists; reflexivity|reflexivity]).
  rewrite (global_bound "Transformer") by reflexivity.
  cbn [bind ext run]. rewrite lift_eq.
  set (a := f (is_Transformer model) w).
  destruct (fst a) eqn:Ea.
  - rewrite run_bind.
    destruct (reverse_diffusion_run f args model scheduler clean_images label (snd a))
      as (noise & condition & timesteps & steps & final & w' & _ & Hrun).
    rewrite Hrun. cbn [then_run].
    rewrite (global_bound "F") by reflexivity. cbn [bind].
    rewrite (global_bound "print") by reflexivity. cbn [bind ext run]. rewrite lift_eq.
    rewrite (global_bound "exit") by reflexivity. reflexivity.
  - cbn. split; reflexivity.
Qed.

(** X10: what the rollout of a training step works on.  With the pair
    [(s, b)] set, a 4-dimensional latent sample and a [Transformer], the noise
    is drawn like, and the conditioning computed from, the normalised latent
    [(latent + b) * s]; the denoising loop starts from that noise and runs
    over the scheduler's timesteps with that conditioning; and the loss that
    is printed before [exit()] is the mean squared error between the image
    the loop ends with (the result of its last scheduler step, the noise
    itself when there is no timestep) and the normalised latent. *)
Theorem train_step_target_is_normalized :
  forall (T : Torch) (W : Type) (f : answers W) (args : Args.Namespace)
         (vae model scheduler accelerator : obj) (total_batch_size epoch : Z)
         (x label : tensor) (l : Locals) (s b : R) (w : W),
    scaling_factor l = Some s ->
    bias_factor l = Some b ->
    let a1 := f (vae_encode vae x) w in
    let a2 := f (latent_sample (fst a1)) (snd a1) in
    let target := tensor_mul_scalar (tensor_add_scalar (fst a2) b) s in
    List.length (shape (fst a2)) = 4%nat ->
    fst (f (is_Transformer model) (snd a2)) = true ->
    exists noise condition timesteps steps final w',
      denoise_trace model scheduler condition timesteps noise steps final /\
      run (lift f)
          (train_step args vae model scheduler accelerator total_batch_size epoch (x, label) l)
          w
      = (inr SystemExit, w',
         ([ Event (vae_encode vae x) (fst a1);
            Event (latent_sample (fst a1)) (fst a2);
            Event (is_Transformer model) true;
            Event (torch_randn_like target) noise;
            Event (forward_parallel model target label) condition;
            Event (scheduler_set_timesteps scheduler (Args.ddpm_num_inference_steps args)) tt;
            Event (scheduler_timesteps scheduler) timesteps ]
          ++ steps
          ++ [Event (print (PFloat (F_mse_loss final target))) tt])%list).
Proof.
  intros T W f args vae model scheduler accelerator total_batch_size epoch x label l s b w
         Hs Hb a1 a2 target Hshape Htr.
  unfold train_step. cbn [bind ext run]. rewrite !lift_eq. fold a1. fold a2.
  rewrite run_bind, (normalize_when_set (lift f) l s b (fst a2) (snd a2) Hs Hb).
  cbn [then_run]. fold target.
  rewrite run_bind. unfold rollout_loss.
  assert (Hsh : shape target = shape (fst a2)) by reflexivity.
  rewrite Hsh.
  destruct (shape (fst a2)) as [|? [|? [|? [|? [|? ?]]]]]; try discriminate Hshape.
  rewrite (global_bound "Transformer") by reflexivity.
  cbn [bind ext run]. rewrite lift_eq, Htr.
  rewrite run_bind.
  destruct (reverse_diffusion_run f args model scheduler target label
              (snd (f (is_Transformer model) (snd a2))))
    as (noise & condition & timesteps & steps & final & w' & Hloop & Hrun).
  rewrite Hrun. cbn [then_run].
  rewrite (global_bound "F") by reflexivity. cbn [bind].
  rewrite (global_bound "print") by reflexivity. cbn [bind ext run]. rewrite lift_eq.
  rewrite (global_bound "exit") by reflexivity.
  set (a5 := f (print (PFloat (F_mse_loss final target))) w').
  destruct (fst a5) eqn:E5.
  exists noise, condition, timesteps, steps, final, (snd a5).
  split; [exact Hloop|].
  cbn [run then_run app fst snd]. reflexivity.
Qed.

Lemma train_step_target_is_normalized_witness :
  let a1 := scripted (vae_encode (Obj 0) (mkTensor [1; 3; 2; 2]%nat [])) resumed_world in
  let a2 := scripted (latent_sample (fst a1)) (snd a1) in
  let target := tensor_mul_scalar (tensor_add_scalar (fst a2) 0%R) 1%R in
  exists noise condition timesteps steps final w',
    denoise_trace (Obj 1) (Obj 2) condition timesteps noise steps final /\
    run (lift scripted)
        (@train_step real_torch default_args (Obj 0) (Obj 1) (Obj 2) (Obj 3) 32 0
           (mkTensor [1; 3; 2; 2]%nat [], mkTensor [1%nat] [7%R])
           (mkLocals 0 0%R (Some 1%R) (Some 0%R) None))
        resumed_world
    = (inr SystemExit, w',
       ([ Event (vae_encode (Obj 0) (mkTensor [1; 3; 2; 2]%nat [])) (fst a1);
          Event (latent_sample (fst a1)) (fst a2);
          Event (is_Transformer (Obj 1)) true;
          Event (torch_randn_like target) noise;
          Event (forward_parallel (Obj 1) target (mkTensor [1%nat] [7%R])) condition;
          Event (scheduler_set_timesteps (Obj 2) (Args.ddpm_num_inference_steps default_args)) tt;
          Event (scheduler_timesteps (Obj 2)) timesteps ]
        ++ steps
        ++ [Event (print (PFloat (@F_mse_loss real_torch final target))) tt])%list).
Proof.
  apply (train_step_target_is_normalized real_torch World scripted default_args
           (Obj 0) (Obj 1) (Obj 2) (Obj 3) 32 0
           (mkTensor [1; 3; 2; 2]%nat []) (mkTensor [1%nat] [7%R])
           (mkLocals 0 0%R (Some 1%R) (Some 0%R) None) 1%R 0%R resumed_world);
    reflexivity.
Defined.

(** The loss a step prints is not that of the latent against itself: with
    the scripted predictor and scheduler the loop ends on the noise it
    began with, all zeros, and the loss on the latent [(-1, 0, 1)] is
    [2/3]. *)
Example train_step_prints_rollout_loss :
  exists loss,
    last (map event_call
            (snd (run (lift scripted)
                    (@train_step real_torch default_args (Obj 0) (Obj 1) (Obj 2) (Obj 3) 32 0
                       (mkTensor [1; 3; 2; 2]%nat [], mkTensor [1%nat] [7%R])
                       (mkLocals 0 0%R (Some 1%R) (Some 0%R) None))
                    resumed_world)))
         (print (PStr ""))
    = print (PFloat loss) /\
    loss = (2 / 3)%R /\
    @F_mse_loss real_torch latent_3 latent_3 = 0%R.
Proof.
  eexists. split; [cbn; reflexivity|].
  split; cbn; unfold mse_R, mean_R; cbn; field.
Qed.

(** ** The sync step and its cadences *)

Lemma calls_satisfy_bind_post {A B : Type} (P : call -> Prop) (Q : A -> Prop)
    (p : prog A) (f : A -> prog B) :
  calls_satisfy P p -> returns_satisfy Q p ->
  (forall a, Q a -> calls_satisfy P (f a)) ->
  calls_satisfy P (bind p f).
Proof.
  intros Hp Hq Hf. induction p as [a|e|c k IH]; simpl; auto.
  destruct Hp as [Hc Hk]. split; auto.
Qed.

Lemma log_metrics_raises (args : Args.Namespace) (accelerator : obj)
    (total_batch_size epoch : Z) (l : Locals) :
  exists e, log_metrics args accelerator total_batch_size epoch l = Raise e.
Proof.
  unfold log_metrics, float_div.
  destruct (Args.log_every args =? 0); [eexists; reflexivity|].
  destruct (Args.gradient_accumulation_steps args =? 0); eexists; reflexivity.
Qed.

(** X11: a sync step never writes a checkpoint when [log_every] divides
    [checkpointing_steps], as it does for the defaults 100 and 5000: every
    step on the checkpointing cadence is then on the logging cadence too,
    and the logging branch raises before the checkpointing test is reached.
    Whatever the outside world, no call of the step is
    [accelerator.save_state], the save of the side record or the write of the
    [latest] pointer. *)
Theorem no_checkpoint_when_log_divides :
  forall (W : Type) (h : handler W) (args : Args.Namespace) (model accelerator : obj)
         (total_batch_size epoch : Z) (l : Locals) (w : W),
    (Args.log_every args | Args.checkpointing_steps args) ->
    calls_where writes_checkpoint
      (snd (run h (after_sync args model accelerator total_batch_size epoch l) w)) = [].
Proof.
  intros W h args model accelerator total_batch_size epoch l w Hdiv.
  apply calls_where_none.
  apply (run_calls_satisfy (fun c => writes_checkpoint c = false)).
  unfold after_sync.
  set (l1 := set_global_step l (global_step l + 1)).
  apply (calls_satisfy_bind_post _ (fun l2 => global_step l2 = global_step l1)).
  - destruct (Args.use_ema args); [|exact I].
    destruct (ema_model l1); [|exact I].
    cbn [bind ext calls_satisfy]. split; [reflexivity|]. intro parameters.
    destruct (EMAModel_step e parameters); exact I.
  - destruct (Args.use_ema args); [|reflexivity].
    destruct (ema_model l1); [|exact I].
    cbn [bind ext returns_satisfy]. intro parameters.
    destruct (EMAModel_step e parameters); [reflexivity|exact I].
  - intros l2 Hl2. unfold py_mod at 1.
    destruct (Args.log_every args =? 0) eqn:Hlog0; [exact I|].
    apply Z.eqb_neq in Hlog0. cbn [bind].
    destruct (global_step l2 mod Args.log_every args =? 0) eqn:Hm.
    + destruct (log_metrics_raises args accelerator total_batch_size epoch l2) as [e ->].
      exact I.
    + cbn [bind]. unfold py_mod.
      destruct (Args.checkpointing_steps args =? 0) eqn:Hc0; [exact I|].
      cbn [bind].
      destruct (global_step l2 mod Args.checkpointing_steps args =? 0) eqn:Hm2;
        [|exact I].
      exfalso. apply Z.eqb_neq in Hm. apply Hm.
      apply Z.eqb_eq in Hm2. apply Z.eqb_neq in Hc0.
      apply Z.mod_divide in Hm2; [|exact Hc0].
      apply Z.mod_divide; [exact Hlog0|].
      eapply Z.divide_trans; eassumption.
Qed.

Lemma no_checkpoint_when_log_divides_witness :
  calls_where writes_checkpoint
    (snd (run (lift scripted)
            (after_sync default_args (Obj 1) (Obj 3) 32 0
               (mkLocals 4999 0%R (Some 1%R) (Some 0%R) None)) resumed_world)) = [].
Proof.
  apply (no_checkpoint_when_log_divides World (lift scripted) default_args (Obj 1) (Obj 3)
           32 0 (mkLocals 4999 0%R (Some 1%R) (Some 0%R) None) resumed_world).
  exists 50. reflexivity.
Defined.

(** X12: a cadence of 0 does not switch the branch off.  Without EMA, a sync
    step with [log_every = 0] raises [ZeroDivisionError] at the test of line
    291, and a step that is off the logging cadence with
    [checkpointing_steps = 0] raises it at the test of line 302; in both
    cases before any call. *)
Theorem zero_cadence_raises :
  forall (W : Type) (h : handler W) (args : Args.Namespace) (model accelerator : obj)
         (total_batch_size epoch : Z) (l : Locals) (w : W),
    Args.use_ema args = false ->
    Args.log_every args = 0 \/
    ((global_step l + 1) mod Args.log_every args <> 0 /\
     Args.checkpointing_steps args = 0) ->
    run h (after_sync args model accelerator total_batch_size epoch l) w
    = (inr ZeroDivisionError, w, []).
Proof.
  intros W h args model accelerator total_batch_size epoch l w Hema Hzero.
  unfold after_sync. rewrite Hema. cbn [bind set_global_step global_step].
  unfold py_mod at 1.
  destruct (Args.log_every args =? 0) eqn:Hlog; [reflexivity|].
  destruct Hzero as [H0|[Hm Hc]]; [apply Z.eqb_neq in Hlog; contradiction|].
  cbn [bind]. apply Z.eqb_neq in Hm. rewrite Hm. cbn [bind global_step].
  unfold py_mod. rewrite Hc. reflexivity.
Qed.

Lemma zero_cadence_raises_witness :
  run (lift scripted)
      (after_sync (set_cadence default_args 100 0) (Obj 1) (Obj 3) 32 0
         (mkLocals 0 0%R (Some 1%R) (Some 0%R) None)) resumed_world
  = (inr ZeroDivisionError, resumed_world, []).
Proof.
  apply (zero_cadence_raises World (lift scripted) (set_cadence default_args 100 0)
           (Obj 1) (Obj 3) 32 0 (mkLocals 0 0%R (Some 1%R) (Some 0%R) None) resumed_world).
  - reflexivity.
  - right. split; [discriminate|reflexivity].
Defined.

(** X13: a sync step on the checkpointing cadence and off the logging one,
    without EMA, in a world whose calls return.  The step counter is
    incremented first, so the checkpoint is the one of the new count
    [global_step + 1]: that count names the directory, is the ["steps"] of the
    side record the main process writes, and the pointer is written once,
    with that directory; the step returns with the incremented counter and
    the other locals as they were. *)
Theorem sync_step_writes_checkpoint :
  forall (W : Type) (f : answers W) (args : Args.Namespace) (model accelerator : obj)
         (total_batch_size epoch : Z) (l : Locals) (w : W),
    Args.use_ema args = false ->
    Args.log_every args <> 0 ->
    (global_step l + 1) mod Args.log_every args <> 0 ->
    Args.checkpointing_steps args <> 0 ->
    (global_step l + 1) mod Args.checkpointing_steps args = 0 ->
    let l' := set_global_step l (global_step l + 1) in
    let path := save_path_of args l' in
    let a1 := f (accelerator_save_state accelerator path) w in
    let is_main := fst (f (is_main_process accelerator) (snd a1)) in
    let r := run (lift f) (after_sync args model accelerator total_batch_size epoch l) w in
    fst (fst r) = inl l' /\
    calls_where is_pointer_write (snd r)
    = [safe_blob_write (path_join (Args.output_dir args) "latest") path] /\
    calls_where is_side_record_save (snd r)
    = (if is_main : bool
       then [torch_save_other_state
               (mkOtherState (scaling_factor l) (bias_factor l) (global_step l + 1) None)
               (path_join path "other_state.pth")]
       else []) /\
    hd_error (map event_call (snd r)) = Some (accelerator_save_state accelerator path).
Proof.
  intros W f args model accelerator total_batch_size epoch l w Hema Hlog Hm Hck Hm2
         l' path a1 is_main r.
  subst r. unfold after_sync. rewrite Hema. fold l'. cbn [bind].
  unfold py_mod.
  rewrite (proj2 (Z.eqb_neq _ _) Hlog). cbn [bind].
  change (global_step l') with (global_step l + 1).
  rewrite (proj2 (Z.eqb_neq _ _) Hm). cbn [bind].
  rewrite (proj2 (Z.eqb_neq _ _) Hck). cbn [bind].
  change (global_step l') with (global_step l + 1).
  rewrite Hm2. cbn [Z.eqb].
  rewrite run_bind.
  unfold checkpoint_branch, save_checkpoint. fold (save_path_of args l'). fold path.
  rewrite Hema.
  rewrite !global_bound by reflexivity.
  cbn [bind ext run]. rewrite lift_eq. fold a1.
  rewrite lift_eq. fold is_main.
  destruct (fst a1).
  destruct is_main.
  - cbn [bind ext run]. rewrite !global_bound by reflexivity.
    cbn [bind ext run]. rewrite !lift_eq.
    cbn [then_run run fst snd app].
    repeat match goal with |- context [fst (f ?c ?x)] =>
      let u := fresh "u" in destruct (fst (f c x)) as [] end.
    repeat split; reflexivity.
  - cbn [bind ext run]. rewrite !lift_eq.
    cbn [then_run run fst snd app].
    repeat match goal with |- context [fst (f ?c ?x)] =>
      let u := fresh "u" in destruct (fst (f c x)) as [] end.
    repeat split; reflexivity.
Qed.

Lemma sync_step_writes_checkpoint_witness :
  let args := set_cadence default_args 100 150 in
  let l := mkLocals 149 0%R (Some 1%R) (Some 0%R) None in
  let l' := set_global_step l (global_step l + 1) in
  let path := save_path_of args l' in
  let a1 := scripted (accelerator_save_state (Obj 3) path) resumed_world in
  let is_main := fst (scripted (is_main_process (Obj 3)) (snd a1)) in
  let r := run (lift scripted) (after_sync args (Obj 1) (Obj 3) 32 0 l) resumed_world in
  fst (fst r) = inl l' /\
  calls_where is_pointer_write (snd r)
  = [safe_blob_write (path_join (Args.output_dir args) "latest") path] /\
  calls_where is_side_record_save (snd r)
  = (if is_main : bool
     then [torch_save_other_state
             (mkOtherState (scaling_factor l) (bias_factor l) (global_step l + 1) None)
             (path_join path "other_state.pth")]
     else []) /\
  hd_error (map event_call (snd r)) = Some (accelerator_save_state (Obj 3) path).
Proof.
  apply (sync_step_writes_checkpoint World scripted (set_cadence default_args 100 150)
           (Obj 1) (Obj 3) 32 0 (mkLocals 149 0%R (Some 1%R) (Some 0%R) None) resumed_world).
  - reflexivity.
  - discriminate.
  - discriminate.
  - discriminate.
  - reflexivity.
Defined.

Example checkpoint_150 :
  calls_where writes_checkpoint
    (snd (run (lift scripted)
            (after_sync (set_cadence default_args 100 150) (Obj 1) (Obj 3) 32 0
               (mkLocals 149 0%R (Some 1%R) (Some 0%R) None)) resumed_world))
  = [ accelerator_save_state (Obj 3) "results/checkpoint-150";
      torch_save_other_state (mkOtherState (Some 1%R) (Some 0%R) 150 None)
        "results/checkpoint-150/other_state.pth";
      safe_blob_write "results/latest" "results/checkpoint-150" ].
Proof. reflexivity. Qed.

(** ** The training loop as a whole *)

Lemma once_then_stop_of_calls {A : Type} (p : call -> bool) (q : prog A) :
  calls_satisfy (fun c => p c = false) q -> once_then_stop p q.
Proof.
  induction q as [a|e|c k IH]; simpl; auto.
  intros [Hc Hk]. rewrite Hc. auto.
Qed.

Lemma once_then_stop_bind {A B : Type} (p : call -> bool) (q : prog A) (f : A -> prog B) :
  once_then_stop p q -> (forall a, once_then_stop p (f a)) ->
  once_then_stop p (bind q f).
Proof.
  intros Hq Hf. induction q as [a|e|c k IH]; simpl; auto.
  simpl in Hq. destruct (p c).
  - intro r. destruct (Hq r) as [Hn Hc]. split.
    + apply never_returns_bind_l, Hn.
    + apply calls_satisfy_bind_stuck; assumption.
  - intro r. apply IH, Hq.
Qed.

Lemma once_then_stop_global {A : Type} (p : call -> bool) (name : string) (q : prog A) :
  once_then_stop p q -> once_then_stop p (global name q).
Proof. unfold global. destruct (bound name); simpl; auto. Qed.

Lemma once_then_stop_for_each {X S : Type} (p : call -> bool) (xs : list X)
    (body : X -> S -> prog S) :
  (forall x s, once_then_stop p (body x s)) ->
  forall s, once_then_stop p (for_each xs body s).
Proof.
  intro Hbody. induction xs as [|x xs IH]; intro s; simpl; auto.
  apply once_then_stop_bind; auto.
Qed.

Lemma count_calls_none {W A : Type} (p : call -> bool) (h : handler W) (q : prog A) (w : W) :
  calls_satisfy (fun c => p c = false) q ->
  count_calls p (snd (run h q w)) = 0%nat.
Proof.
  intro Hq.
  pose proof (run_calls_satisfy (fun c => p c = false) h q Hq w) as H.
  unfold count_calls. induction (snd (run h q w)) as [|ev tr IH]; [reflexivity|].
  cbn [filter]. rewrite (H ev) by (simpl; auto).
  apply IH. intros ev' Hin. apply H. simpl. auto.
Qed.

Lemma run_once_then_stop {W A : Type} (p : call -> bool) (h : handler W) (q : prog A) :
  once_then_stop p q ->
  forall w,
    (count_calls p (snd (run h q w)) <= 1)%nat /\
    (count_calls p (snd (run h q w)) = 1%nat -> forall a, fst (fst (run h q w)) <> inl a).
Proof.
  induction q as [a|e|c k IH]; intros Hq w.
  - unfold count_calls. simpl. split; [lia|discriminate].
  - unfold count_calls. simpl. split; [lia|discriminate].
  - cbn [run]. cbn [once_then_stop] in Hq.
    destruct (h c w) as [[r|e] w'].
    + destruct (p c) eqn:Hp.
      * destruct (Hq r) as [Hn Hc].
        pose proof (count_calls_none p h (k r) w' Hc) as H0.
        pose proof (run_never_returns h (k r) Hn w') as Hnr.
        destruct (run h (k r) w') as [[res w''] tr]. cbn [fst snd] in *.
        unfold count_calls in *. cbn [filter event_call]. rewrite Hp. cbn [List.length].
        rewrite H0. split; [lia|]. intros _. exact Hnr.
      * specialize (IH r (Hq r) w').
        destruct (run h (k r) w') as [[res w''] tr]. cbn [fst snd] in *.
        unfold count_calls in *. cbn [filter event_call]. rewrite Hp. exact IH.
    + cbn [fst snd]. unfold count_calls. cbn [filter event_call].
      destruct (p c); cbn [List.length]; split; try lia; intros _ a; discriminate.
Qed.

Ltac no_call_tac :=
  unfold float_div, py_mod, py_floordiv, exit;
  repeat first
    [ exact I
    | apply calls_satisfy_global
    | apply calls_satisfy_for_each; intros
    | apply calls_satisfy_bind; [|intros]
    | progress cbn [ext calls_satisfy]
    | split; [reflexivity|intros]
    | match goal with
      | |- calls_satisfy _ (if ?b then _ else _) => destruct b
      | |- calls_satisfy _ (match ?o with _ => _ end) => destruct o
      end ].

Ltac once_tac :=
  unfold float_div, py_mod, py_floordiv, exit;
  repeat first
    [ exact I
    | apply once_then_stop_global
    | apply once_then_stop_for_each; intros
    | apply once_then_stop_bind; [|intros]
    | progress cbn [ext once_then_stop is_vae_encode]
    | match goal with
      | |- forall _, _ => intro
      | |- once_then_stop _ (if ?b then _ else _) => destruct b
      | |- once_then_stop _ (match ?o with _ => _ end) => destruct o
      end ].

Section WholeLoop.

Context {torch : Torch}.

Lemma normalize_no_encode (x : tensor) (l : Locals) :
  calls_satisfy (fun c => is_vae_encode c = false) (normalize x l).
Proof. unfold normalize. no_call_tac. Qed.

Lemma rollout_loss_no_encode (args : Args.Namespace) (model scheduler : obj)
    (clean_images label : tensor) :
  calls_satisfy (fun c => is_vae_encode c = false)
    (rollout_loss args model scheduler clean_images label).
Proof. unfold rollout_loss, reverse_diffusion. no_call_tac. Qed.

Lemma train_step_once (args : Args.Namespace) (vae model scheduler accelerator : obj)
    (total_batch_size epoch : Z) (batch : tensor * tensor) (l : Locals) :
  once_then_stop is_vae_encode
    (train_step args vae model scheduler accelerator total_batch_size epoch batch l).
Proof.
  destruct batch as [x label]. unfold train_step.
  cbn [bind ext once_then_stop is_vae_encode]. intro d. split.
  - cbn [never_returns]. intro latent.
    apply never_returns_bind_r. intros [y l'].
    apply never_returns_bind_l, rollout_loss_never_returns.
  - cbn [calls_satisfy]. split; [reflexivity|]. intro latent.
    apply calls_satisfy_bind; [apply normalize_no_encode|]. intros [y l'].
    apply calls_satisfy_bind_stuck;
      [apply rollout_loss_no_encode|apply rollout_loss_never_returns].
Qed.

Lemma train_epoch_once (args : Args.Namespace)
    (vae model scheduler accelerator train_dataloader : obj)
    (total_batch_size epoch : Z) (l : Locals) :
  once_then_stop is_vae_encode
    (train_epoch args vae model scheduler accelerator train_dataloader
       total_batch_size epoch l).
Proof.
  unfold train_epoch. cbn [bind ext once_then_stop is_vae_encode]. intros _ batches.
  apply once_then_stop_for_each. intros batch l'. apply train_step_once.
Qed.

Lemma main_body_once (args : Args.Namespace) (logging_dir device : string)
    (vae : obj) (input_size latent_size : Z) (flatten_input : bool) :
  once_then_stop is_vae_encode
    (main_body args logging_dir device vae input_size latent_size flatten_input).
Proof.
  unfold main_body, create_ema, find_checkpoint, resume.
  once_tac.
  all: try apply train_step_once.
  all: match goal with
       | x : (nat * (_ * tensor))%type |- _ => destruct x as [i [name ema_param]]
       | x : (_ * (_ * tensor))%type |- _ => destruct x as [i [name ema_param]]
       end; once_tac.
Qed.

End WholeLoop.

(** X14: the code of [main] after its first lines, under any behaviour of
    the libraries it calls and from any state: over all epochs at most one
    batch is encoded by the VAE, and a run in which one is encoded does not
    return: the first batch ends in [exit()] or in an exception of one of
    the calls after it. *)
Theorem main_body_encodes_at_most_one_batch {W : Type} {torch : Torch} (h : handler W)
    (args : Args.Namespace) (logging_dir device : string) (vae : obj)
    (input_size latent_size : Z) (flatten_input : bool) (w : W) :
  (count_calls is_vae_encode
     (snd (run h (main_body args logging_dir device vae input_size latent_size
                    flatten_input) w)) <= 1)%nat /\
  (count_calls is_vae_encode
     (snd (run h (main_body args logging_dir device vae input_size latent_size
                    flatten_input) w)) = 1%nat ->
   forall u : unit,
     fst (fst (run h (main_body args logging_dir device vae input_size latent_size
                        flatten_input) w)) <> inl u).
Proof.
  apply run_once_then_stop, main_body_once.
Qed.

Section NothingAfterLoss.

Context {torch : Torch}.

Lemma normalize_before_loss (x : tensor) (l : Locals) :
  calls_satisfy (fun c => after_loss c = false) (normalize x l).
Proof. unfold normalize. no_call_tac. Qed.

Lemma rollout_loss_before_loss (args : Args.Namespace) (model scheduler : obj)
    (clean_images label : tensor) :
  calls_satisfy (fun c => after_loss c = false)
    (rollout_loss args model scheduler clean_images label).
Proof. unfold rollout_loss, reverse_diffusion. no_call_tac. Qed.

Lemma train_step_before_loss (args : Args.Namespace)
    (vae model scheduler accelerator : obj) (total_batch_size epoch : Z)
    (batch : tensor * tensor) (l : Locals) :
  calls_satisfy (fun c => after_loss c = false)
    (train_step args vae model scheduler accelerator total_batch_size epoch batch l).
Proof.
  destruct batch as [x label]. unfold train_step. cbn [bind ext calls_satisfy].
  split; [reflexivity|]. intro d. split; [reflexivity|]. intro latent.
  apply calls_satisfy_bind; [apply normalize_before_loss|]. intros [y l'].
  apply calls_satisfy_bind_stuck;
    [apply rollout_loss_before_loss|apply rollout_loss_never_returns].
Qed.

Lemma main_body_before_loss (args : Args.Namespace) (logging_dir device : string)
    (vae : obj) (input_size latent_size : Z) (flatten_input : bool) :
  calls_satisfy (fun c => after_loss c = false)
    (main_body args logging_dir device vae input_size latent_size flatten_input).
Proof.
  unfold main_body, create_ema, find_checkpoint, resume.
  no_call_tac.
  all: try apply train_step_before_loss.
  all: match goal with
       | x : (_ * (_ * tensor))%type |- _ => destruct x as [i [name ema_param]]
       end; no_call_tac.
Qed.

End NothingAfterLoss.

(** X15: the script as a whole never trains.  In any run of the code of
    [main] after its first lines, whatever the libraries answer and whatever
    the arguments, no call is [accelerator.backward], the gradient-sync
    test, a telemetry sink or a checkpoint write: over all epochs and
    batches, the resume block included. *)
Theorem main_body_never_reaches_backward {W : Type} {torch : Torch} (h : handler W)
    (args : Args.Namespace) (logging_dir device : string) (vae : obj)
    (input_size latent_size : Z) (flatten_input : bool) (w : W) :
  calls_where after_loss
    (snd (run h (main_body args logging_dir device vae input_size latent_size
                   flatten_input) w)) = [].
Proof.
  apply calls_where_none.
  apply (run_calls_satisfy (fun c => after_loss c = false)).
  apply main_body_before_loss.
Qed.
